(** * print_data: DMP Tait-Bryan angle printer for the BeagleBone Blue

    A shallow embedding of [src/print_data.cpp].  The program parses its
    command line with getopt(3), fills a vendor configuration struct,
    initialises the IMU's digital motion processor, registers a callback
    that prints three angles, and sleeps until SIGINT clears a flag.

    Layout of the development:
    - characters, C strings and [atoi];
    - a model of the C library's [getopt] for short options;
    - the vendor interface ([robotcontrol.h]) as a type class;
    - the functions of the source file, in source order, an output
      being the list of library calls it makes;
    - [main]: lines 150-202 as a function of the command line and the
      standard input, and the whole of it as a transition system on
      which SIGINT and DMP interrupts interleave with the statements of
      the main thread;
    - the vocabulary of the statements, and one instance of the vendor
      interface to run the definitions;
    - the theorems: the scanner, the option loop, the prompt, the
      invariant of the runs, and the properties C1 to C8;
    - the theorems applied to concrete runs. *)

From Stdlib Require Import ZArith List String Ascii Bool Lia PrimFloat.
From Stdlib Require Import DecimalString.
Import ListNotations.

Local Open Scope string_scope.
Local Open Scope list_scope.
Local Open Scope Z_scope.

(** ** Characters and C strings *)

(** The value of a character constant, as C's [int]. *)
Definition chr (c : ascii) : Z := Z.of_N (N_of_ascii c).

Definition LF : ascii := "010"%char.   (* '\n' *)
Definition CR : ascii := "013"%char.   (* '\r' *)

(** ["text\n"] of the source is written [line "text"]. *)
Definition line (s : string) : string := String.append s (String LF EmptyString).

(** [strchr s c]: the suffix of [s] that starts at the first [c]. *)
Fixpoint strchr (s : string) (c : ascii) : option string :=
  match s with
  | EmptyString => None
  | String a s' => if Ascii.eqb a c then Some s else strchr s' c
  end.

(** [temp[i]] for a C string: the terminating NUL past the end. *)
Definition char_at (s : string) (i : nat) : ascii :=
  match String.get i s with
  | Some c => c
  | None => Ascii.zero
  end.

(** *** atoi

    [atoi(s)] is [(int) strtol(s, NULL, 10)]: leading white space, an
    optional sign, then the longest run of decimal digits.  [strtol]
    saturates at the bounds of [long]; the board is a 32-bit ARM, where
    [long] and [int] are both 32 bits wide. *)

Definition INT_MAX : Z := 2147483647.
Definition INT_MIN : Z := -2147483648.

Definition isspace (c : ascii) : bool :=
  let n := chr c in (n =? 32) || ((9 <=? n) && (n <=? 13)).

Definition isdigit (c : ascii) : bool :=
  let n := chr c in (48 <=? n) && (n <=? 57).

Fixpoint skip_space (s : string) : string :=
  match s with
  | String c s' => if isspace c then skip_space s' else s
  | EmptyString => s
  end.

Fixpoint digits (acc : Z) (s : string) : Z :=
  match s with
  | String c s' => if isdigit c then digits (10 * acc + (chr c - 48)) s' else acc
  | EmptyString => acc
  end.

Definition strtol (s : string) : Z :=
  let v :=
    match skip_space s with
    | String "-" s' => - digits 0 s'
    | String "+" s' => digits 0 s'
    | s' => digits 0 s'
    end in
  Z.max INT_MIN (Z.min INT_MAX v).

Definition atoi (s : string) : Z := strtol s.

(** ** getopt(3)

    The scanner of the C library, for an option string made of option
    letters each followed by no colon, one colon (required argument) or
    two (optional argument), and not starting with ['+'], ['-'] or [':'].
    [opterr] is 0 in the program, so nothing is printed by the scanner
    itself.

    The hidden state of the scanner is kept as the part of [argv] that
    has not been scanned: [nextchar] is the rest of the option element
    being scanned (empty when the next call moves to a new element) and
    [pending] the elements after it.  In the default mode the C library
    moves operands behind the options while scanning; the scanner never
    looks at an element again once it is passed, so the results of the
    calls are those of a left-to-right scan that skips operands. *)

Inductive ordering_t : Set :=
| REQUIRE_ORDER   (* POSIXLY_CORRECT is set: stop at the first operand *)
| PERMUTE.        (* the default: skip operands *)

Record getopt_data : Set := mk_getopt_data {
  nextchar : string;
  pending : list string;
  optarg : option string;   (* [None] is NULL *)
  optopt : Z
}.

(** [argv[optind][0] != '-' || argv[optind][1] == '\0'] *)
Definition NONOPTION_P (s : string) : bool :=
  match s with
  | String "-" (String _ _) => false
  | _ => true
  end.

Fixpoint skip_nonoptions (l : list string) : list string :=
  match l with
  | e :: l' => if NONOPTION_P e then skip_nonoptions l' else l
  | [] => []
  end.

(** The option character to look at next and what follows it, or
    [None] when the scan is over. *)
Definition next_option_char (ordering : ordering_t) (d : getopt_data)
  : option (ascii * string * list string) :=
  match nextchar d with
  | String c s' => Some (c, s', pending d)
  | EmptyString =>
      let rest :=
        match ordering with
        | PERMUTE => skip_nonoptions (pending d)
        | REQUIRE_ORDER => pending d
        end in
      match rest with
      | [] => None
      | e :: rest' =>
          if String.eqb e "--" then None
          else if NONOPTION_P e then None
          else match e with
               | String _ (String c s') => Some (c, s', rest')
               | _ => None
               end
      end
  end.

(** One call [getopt(argc, argv, optstring)]: the value returned and
    the state left behind.  After a return of -1 the program never
    calls the scanner again; the state is then left as it was. *)
Definition getopt (ordering : ordering_t) (argc : Z) (optstring : string)
    (d : getopt_data) : Z * getopt_data :=
  if argc <? 1 then (-1, d) else
  match next_option_char ordering d with
  | None => (-1, d)
  | Some (c, s', rest) =>
      match strchr optstring c with
      | None =>
          (chr "?", mk_getopt_data s' rest None (chr c))
      | Some temp =>
          if Ascii.eqb c ":" || Ascii.eqb c ";" then
            (chr "?", mk_getopt_data s' rest None (chr c))
          else if Ascii.eqb (char_at temp 1) ":" then
            if Ascii.eqb (char_at temp 2) ":" then
              (* an option that accepts an argument optionally *)
              match s' with
              | String _ _ => (chr c, mk_getopt_data EmptyString rest (Some s') (optopt d))
              | EmptyString => (chr c, mk_getopt_data EmptyString rest None (optopt d))
              end
            else
              (* an option that requires an argument *)
              match s', rest with
              | String _ _, _ =>
                  (chr c, mk_getopt_data EmptyString rest (Some s') (optopt d))
              | EmptyString, [] =>
                  (chr "?", mk_getopt_data EmptyString [] None (chr c))
              | EmptyString, a :: rest' =>
                  (chr c, mk_getopt_data EmptyString rest' (Some a) (optopt d))
              end
          else
            (chr c, mk_getopt_data s' rest None (optopt d))
      end
  end.

(** The state before the first call: [optind] is 1. *)
Definition getopt_init (argv : list string) : getopt_data :=
  mk_getopt_data EmptyString (tl argv) None (chr "?").

(** What is left to scan; every call that returns an option lowers it. *)
Definition unscanned (d : getopt_data) : nat :=
  String.length (nextchar d)
  + list_sum (map (fun e => S (String.length e)) (pending d)).

(** The successive results [(c, optarg)] of calling [getopt] until it
    returns -1, at most [fuel] of them. *)
Fixpoint getopt_seq (fuel : nat) (ordering : ordering_t) (argc : Z)
    (optstring : string) (d : getopt_data) : list (Z * option string) :=
  match fuel with
  | O => []
  | S fuel' =>
      let (c, d') := getopt ordering argc optstring d in
      if c =? -1 then []
      else (c, optarg d') :: getopt_seq fuel' ordering argc optstring d'
  end.

(** The decimal numeral of an integer, as one types it after [-r]. *)
Definition decimal (n : Z) : string := NilZero.string_of_int (Z.to_int n).

(** ** The vendor interface: robotcontrol.h

    The types and constants the program takes from librobotcontrol.  The
    header is not part of this repository, so what the program does not
    fix itself is a parameter: the fields of the configuration struct
    the program never names, the default configuration, the indices of
    the three angles and the conversion factor. *)

Inductive rc_mpu_orientation_t : Set :=
| ORIENTATION_Z_UP
| ORIENTATION_Z_DOWN
| ORIENTATION_X_UP
| ORIENTATION_X_DOWN
| ORIENTATION_Y_UP
| ORIENTATION_Y_DOWN
| ORIENTATION_X_FORWARD
| ORIENTATION_X_BACK.

(** [rc_mpu_config_t]: the six fields the program names, and the rest
    of the struct as one opaque component. *)
Record rc_mpu_config_t (other : Type) : Type := mk_config {
  gpio_interrupt_pin_chip : Z;
  gpio_interrupt_pin : Z;
  i2c_bus : Z;
  enable_magnetometer : Z;
  dmp_sample_rate : Z;
  orient : rc_mpu_orientation_t;
  other_fields : other
}.

Arguments mk_config {other}.
Arguments gpio_interrupt_pin_chip {other}.
Arguments gpio_interrupt_pin {other}.
Arguments i2c_bus {other}.
Arguments enable_magnetometer {other}.
Arguments dmp_sample_rate {other}.
Arguments orient {other}.
Arguments other_fields {other}.

(** [rc_mpu_data_t]: the program reads [dmp_TaitBryan] only, an array
    of doubles indexed by the [TB_] constants. *)
Record rc_mpu_data_t : Set := mk_data {
  dmp_TaitBryan : nat -> float
}.

Class robotcontrol : Type := {
  config_other : Type;
  rc_mpu_default_config : rc_mpu_config_t config_other;
  TB_PITCH_X : nat;
  TB_ROLL_Y : nat;
  TB_YAW_Z : nat;
  RAD_TO_DEG : float
}.

(** ** The program *)

Definition I2C_BUS : Z := 2.
Definition GPIO_INT_PIN_CHIP : Z := 3.
Definition GPIO_INT_PIN_PIN : Z := 21.

(** An argument of a [printf] call. *)
Inductive arg : Set :=
| Adouble (x : float)
| Aint (n : Z).

Section Program.

Context {RC : robotcontrol}.

Definition config : Type := rc_mpu_config_t config_other.

(** What a run does that can be seen from outside: the calls into the C
    library and into librobotcontrol, in the order they are made. *)
Inductive event : Type :=
| Egetopt (ret : Z)
| Eprintf (format : string) (args : list arg)
| Efflush
| Esignal                                   (* signal(SIGINT, __signal_handler) *)
| Einitialize_dmp (conf : config) (ret : Z) (* rc_mpu_initialize_dmp(&data, conf) *)
| Eset_dmp_callback                         (* rc_mpu_set_dmp_callback(&__print_data) *)
| Eusleep (us : Z)
| Epower_off.                               (* rc_mpu_power_off() *)

(** Assignments to a field of the configuration. *)
Definition set_i2c_bus (v : Z) (c : config) : config :=
  mk_config (gpio_interrupt_pin_chip c) (gpio_interrupt_pin c) v
    (enable_magnetometer c) (dmp_sample_rate c) (orient c) (other_fields c).
Definition set_gpio_interrupt_pin_chip (v : Z) (c : config) : config :=
  mk_config v (gpio_interrupt_pin c) (i2c_bus c)
    (enable_magnetometer c) (dmp_sample_rate c) (orient c) (other_fields c).
Definition set_gpio_interrupt_pin (v : Z) (c : config) : config :=
  mk_config (gpio_interrupt_pin_chip c) v (i2c_bus c)
    (enable_magnetometer c) (dmp_sample_rate c) (orient c) (other_fields c).
Definition set_enable_magnetometer (v : Z) (c : config) : config :=
  mk_config (gpio_interrupt_pin_chip c) (gpio_interrupt_pin c) (i2c_bus c)
    v (dmp_sample_rate c) (orient c) (other_fields c).
Definition set_dmp_sample_rate (v : Z) (c : config) : config :=
  mk_config (gpio_interrupt_pin_chip c) (gpio_interrupt_pin c) (i2c_bus c)
    (enable_magnetometer c) v (orient c) (other_fields c).
Definition set_orient (v : rc_mpu_orientation_t) (c : config) : config :=
  mk_config (gpio_interrupt_pin_chip c) (gpio_interrupt_pin c) (i2c_bus c)
    (enable_magnetometer c) (dmp_sample_rate c) v (other_fields c).

(** *** __print_usage *)
Definition __print_usage : list event :=
  [ Eprintf (String LF (line " Options")) [];
    Eprintf (line "-r {rate}       Set sample rate in HZ (default 100)") [];
    Eprintf (line "                Sample rate must be a divisor of 200") [];
    Eprintf (line "-m              Enable Magnetometer") [];
    Eprintf (line "-o              Show a menu to select IMU orientation") [];
    Eprintf (line (line "-h              Print this help message")) [] ].

(** *** __print_data: the IMU interrupt function *)
Definition __print_data (data : rc_mpu_data_t) : list event :=
  [ Eprintf (String CR EmptyString) [];
    Eprintf " " [];
    Eprintf "%6.1f %6.1f %6.1f |"
      [ Adouble (dmp_TaitBryan data TB_PITCH_X * RAD_TO_DEG)%float;
        Adouble (dmp_TaitBryan data TB_ROLL_Y * RAD_TO_DEG)%float;
        Adouble (dmp_TaitBryan data TB_YAW_Z * RAD_TO_DEG)%float ];
    Efflush ].

(** *** __print_header *)
Definition __print_header : list event :=
  [ Eprintf " " [];
    Eprintf " DMP TaitBryan (deg) |" [];
    Eprintf (String LF EmptyString) [] ].

(** *** __orientation_prompt

    [stdin] is what [getchar] will deliver, up to end of input.  The
    function either returns an orientation or leaves the process through
    [exit]; it also gives back the input it has not read and what it
    has printed. *)
Inductive prompt_result : Set :=
| prompt_return (o : rc_mpu_orientation_t)
| prompt_exit (status : Z).

Definition prompt_menu : list event :=
  [ Eprintf (String LF EmptyString) [];
    Eprintf (line "Please select a number 1-6 corresponding to the") [];
    Eprintf (line (line "orientation you wish to use. Press 'q' to exit.")) [];
    Eprintf (line " 1: ORIENTATION_Z_UP") [];
    Eprintf (line " 2: ORIENTATION_Z_DOWN") [];
    Eprintf (line " 3: ORIENTATION_X_UP") [];
    Eprintf (line " 4: ORIENTATION_X_DOWN") [];
    Eprintf (line " 5: ORIENTATION_Y_UP") [];
    Eprintf (line " 6: ORIENTATION_Y_DOWN") [];
    Eprintf (line " 7: ORIENTATION_X_FORWARD") [];
    Eprintf (line " 8: ORIENTATION_X_BACK") [] ].

(** The [while ((c = getchar()) != EOF)] loop. *)
Fixpoint prompt_loop (stdin : list ascii) (out : list event)
  : prompt_result * list ascii * list event :=
  match stdin with
  | [] => (prompt_return ORIENTATION_Z_UP, [], out)
  | c :: stdin' =>
      if Ascii.eqb c "1" then (prompt_return ORIENTATION_Z_UP, stdin', out)
      else if Ascii.eqb c "2" then (prompt_return ORIENTATION_Z_DOWN, stdin', out)
      else if Ascii.eqb c "3" then (prompt_return ORIENTATION_X_UP, stdin', out)
      else if Ascii.eqb c "4" then (prompt_return ORIENTATION_X_DOWN, stdin', out)
      else if Ascii.eqb c "5" then (prompt_return ORIENTATION_Y_UP, stdin', out)
      else if Ascii.eqb c "6" then (prompt_return ORIENTATION_Y_DOWN, stdin', out)
      else if Ascii.eqb c "7" then (prompt_return ORIENTATION_X_FORWARD, stdin', out)
      else if Ascii.eqb c "8" then (prompt_return ORIENTATION_X_BACK, stdin', out)
      else if Ascii.eqb c "q" then
        (prompt_exit 0, stdin', out ++ [Eprintf (line "Quitting") []])
      else if Ascii.eqb c LF then prompt_loop stdin' out
      else prompt_loop stdin' (out ++ [Eprintf (line "invalid input") []])
  end.

Definition __orientation_prompt (stdin : list ascii)
  : prompt_result * list ascii * list event :=
  prompt_loop stdin prompt_menu.

(** *** main, lines 150-202: the options and the configuration *)

(** What the option loop reads and writes: the locals [show_something]
    and [conf], the globals [enable_mag] and [orientation_menu]. *)
Record vars : Type := mk_vars {
  show_something : Z;
  conf : config;
  enable_mag : Z;
  orientation_menu : Z
}.

Definition optstring : string := "r:m:ho".

(** One pass through the body of the loop: it falls out of the
    [switch], returns from [main], or hands NULL to [atoi]. *)
Inductive body_result : Type :=
| body_break (v : vars) (out : list event)
| body_return (rc : Z) (out : list event)
| body_null (out : list event).

Definition option_switch (c : Z) (arg : option string) (v : vars)
    (out : list event) : body_result :=
  if c =? chr "r" then
    match arg with
    | None => body_null out
    | Some s =>
        let sample_rate := atoi s in
        let v := mk_vars 1 (conf v) (enable_mag v) (orientation_menu v) in
        if (sample_rate >? 200) || (sample_rate <? 4) then
          body_return (-1)
            (out ++ [Eprintf "sample_rate must be between 4 & 200" []])
        else
          body_break
            (mk_vars (show_something v)
               (set_dmp_sample_rate sample_rate (conf v))
               (enable_mag v) (orientation_menu v))
            out
    end
  else if c =? chr "m" then
    body_break
      (mk_vars (show_something v) (set_enable_magnetometer 1 (conf v))
         1 (orientation_menu v))
      out
  else if c =? chr "o" then
    body_break (mk_vars (show_something v) (conf v) (enable_mag v) 1) out
  else if c =? chr "h" then
    body_return (-1) (out ++ __print_usage)
  else
    body_return (-1)
      (out ++ [Eprintf (line "opt: %c") [Aint c];
               Eprintf (line "invalid argument") []] ++ __print_usage).

Inductive loop_result : Type :=
| loop_done (v : vars) (out : list event)     (* the loop condition failed *)
| loop_return (rc : Z) (out : list event)     (* a [return] in the body *)
| loop_null (out : list event)                (* atoi(NULL) *)
| loop_fuel.                                  (* [fuel] iterations were not enough *)

(** [while ((c=getopt(argc, argv, "r:m:ho"))!=-1 && argc>1) { switch ... }] *)
Fixpoint option_loop (fuel : nat) (ordering : ordering_t) (argc : Z)
    (d : getopt_data) (v : vars) (out : list event) : loop_result :=
  match fuel with
  | O => loop_fuel
  | S fuel' =>
      let (c, d') := getopt ordering argc optstring d in
      let out := out ++ [Egetopt c] in
      if negb (c =? -1) && (argc >? 1) then
        match option_switch c (optarg d') v out with
        | body_break v' out' => option_loop fuel' ordering argc d' v' out'
        | body_return rc out' => loop_return rc out'
        | body_null out' => loop_null out'
        end
      else loop_done v out
  end.

(** How lines 150-202 end. *)
Inductive configure_result : Type :=
| configured (v : vars) (stdin : list ascii) (out : list event)  (* line 204 is next *)
| configure_return (rc : Z) (out : list event)
| configure_exit (status : Z) (out : list event)
| configure_null (out : list event)
| configure_fuel.

(** The configuration before the options are looked at (lines 156-159). *)
Definition initial_conf : config :=
  set_gpio_interrupt_pin GPIO_INT_PIN_PIN
    (set_gpio_interrupt_pin_chip GPIO_INT_PIN_CHIP
       (set_i2c_bus I2C_BUS rc_mpu_default_config)).

(** Every call of [getopt] that returns an option takes at least one
    character off what is left to scan, so this many iterations are
    enough (lemma [option_loop_scan] below). *)
Definition scan_budget (argv : list string) : nat :=
  S (unscanned (getopt_init argv)).

Definition main_configure (ordering : ordering_t) (argv : list string)
    (stdin : list ascii) : configure_result :=
  let argc := Z.of_nat (List.length argv) in
  match option_loop (scan_budget argv) ordering argc (getopt_init argv)
          (mk_vars 0 initial_conf 0 0) [] with
  | loop_fuel => configure_fuel
  | loop_null out => configure_null out
  | loop_return rc out => configure_return rc out
  | loop_done v out =>
      if show_something v =? 0 then
        configure_return (-1)
          (out ++ __print_usage
               ++ [Eprintf (line "please enable an option to print some data") []])
      else if negb (orientation_menu v =? 0) then
        match __orientation_prompt stdin with
        | (prompt_return o, stdin', out') =>
            configured
              (mk_vars (show_something v) (set_orient o (conf v))
                 (enable_mag v) (orientation_menu v))
              stdin' (out ++ out')
        | (prompt_exit status, _, out') => configure_exit status (out ++ out')
        end
      else configured v stdin out
  end.

(** *** main as a transition system

    From line 204 on the main thread is not alone: SIGINT runs
    [__signal_handler], and the DMP interrupt stores a new sample in
    [data] and runs the registered callback.  A state holds the program
    counter of the main thread (the line of the next statement), the
    globals, the disposition of SIGINT, whether the DMP is running,
    whether the callback is registered, and everything done so far. *)

Inductive pc_t : Set :=
| L150            (* entry of main; lines 150-202 are one step *)
| L205            (* signal(SIGINT, __signal_handler) *)
| L206            (* running = 1 *)
| L209            (* if (rc_mpu_initialize_dmp(&data, conf)) *)
| L210            (* printf("rc_mpu_initialize_failed\n") *)
| L211            (* return -1 *)
| L216            (* __print_header() *)
| L219            (* rc_mpu_set_dmp_callback(&__print_data) *)
| L223            (* while (running) *)
| L223_usleep     (* rc_usleep(100000) *)
| L226            (* rc_mpu_power_off() *)
| L227            (* printf("\n") *)
| L228            (* fflush(stdout) *)
| L229            (* return 0 *)
| Returned (rc : Z)      (* main has returned [rc] *)
| Exited (status : Z)    (* exit(status) was called *)
| Killed.                (* the process was ended by a signal *)

Record state : Type := mk_state {
  pc : pc_t;
  running : Z;
  data : rc_mpu_data_t;
  locals : vars;
  handler : bool;        (* SIGINT is caught by __signal_handler *)
  dmp_on : bool;         (* the DMP was initialised and not powered off *)
  callback : bool;       (* __print_data is the DMP callback *)
  stdin_left : list ascii;
  out : list event
}.

(** What a run is given from outside. *)
Record input : Set := mk_input {
  argv : list string;
  ordering : ordering_t;     (* whether POSIXLY_CORRECT is in the environment *)
  stdin : list ascii
}.

Definition zero_data : rc_mpu_data_t := mk_data (fun _ => 0%float).

Definition initial (i : input) : state :=
  mk_state L150 0 zero_data (mk_vars 0 initial_conf 0 0) false false false
    (stdin i) [].

(** Who moves. *)
Inductive label : Set :=
| Lmain (ret : Z)             (* the main thread runs the statement at [pc];
                                 [ret] is what rc_mpu_initialize_dmp returns,
                                 if that is the statement *)
| Lsigint                     (* SIGINT is delivered *)
| Ldmp (d : rc_mpu_data_t).   (* the DMP interrupts with a new sample *)

Definition terminated (p : pc_t) : bool :=
  match p with
  | Returned _ | Exited _ | Killed => true
  | _ => false
  end.

Definition goto (p : pc_t) (st : state) : state :=
  mk_state p (running st) (data st) (locals st) (handler st) (dmp_on st)
    (callback st) (stdin_left st) (out st).

Definition emit (es : list event) (st : state) : state :=
  mk_state (pc st) (running st) (data st) (locals st) (handler st) (dmp_on st)
    (callback st) (stdin_left st) (out st ++ es).

Definition set_running (r : Z) (st : state) : state :=
  mk_state (pc st) r (data st) (locals st) (handler st) (dmp_on st)
    (callback st) (stdin_left st) (out st).

Definition set_handler (b : bool) (st : state) : state :=
  mk_state (pc st) (running st) (data st) (locals st) b (dmp_on st)
    (callback st) (stdin_left st) (out st).

Definition set_dmp_on (b : bool) (st : state) : state :=
  mk_state (pc st) (running st) (data st) (locals st) (handler st) b
    (callback st) (stdin_left st) (out st).

Definition set_callback (b : bool) (st : state) : state :=
  mk_state (pc st) (running st) (data st) (locals st) (handler st) (dmp_on st)
    b (stdin_left st) (out st).

Definition set_data (d : rc_mpu_data_t) (st : state) : state :=
  mk_state (pc st) (running st) d (locals st) (handler st) (dmp_on st)
    (callback st) (stdin_left st) (out st).

(** *** __signal_handler *)
Definition __signal_handler (st : state) : state := set_running 0 st.

(** The statement of the main thread at [pc st]. *)
Definition main_step (i : input) (ret : Z) (st : state) : option state :=
  match pc st with
  | L150 =>
      match main_configure (ordering i) (argv i) (stdin i) with
      | configured v stdin' o =>
          Some (mk_state L205 (running st) (data st) v (handler st)
                  (dmp_on st) (callback st) stdin' (out st ++ o))
      | configure_return rc o => Some (goto (Returned rc) (emit o st))
      | configure_exit status o => Some (goto (Exited status) (emit o st))
      | configure_null o => Some (goto Killed (emit o st))
      | configure_fuel => None
      end
  | L205 => Some (goto L206 (set_handler true (emit [Esignal] st)))
  | L206 => Some (goto L209 (set_running 1 st))
  | L209 =>
      let st' := emit [Einitialize_dmp (conf (locals st)) ret] st in
      if negb (ret =? 0) then Some (goto L210 st')
      else Some (goto L216 (set_dmp_on true st'))
  | L210 => Some (goto L211 (emit [Eprintf (line "rc_mpu_initialize_failed") []] st))
  | L211 => Some (goto (Returned (-1)) st)
  | L216 => Some (goto L219 (emit __print_header st))
  | L219 => Some (goto L223 (set_callback true (emit [Eset_dmp_callback] st)))
  | L223 =>
      if negb (running st =? 0) then Some (goto L223_usleep st)
      else Some (goto L226 st)
  | L223_usleep => Some (goto L223 (emit [Eusleep 100000] st))
  | L226 => Some (goto L227 (set_dmp_on false (emit [Epower_off] st)))
  | L227 => Some (goto L228 (emit [Eprintf (String LF EmptyString) []] st))
  | L228 => Some (goto L229 (emit [Efflush] st))
  | L229 => Some (goto (Returned 0) st)
  | Returned _ | Exited _ | Killed => None
  end.

(** One move of the system. *)
Definition exec (i : input) (l : label) (st : state) : option state :=
  if terminated (pc st) then None else
  match l with
  | Lmain ret => main_step i ret st
  | Lsigint =>
      if handler st then Some (__signal_handler st)
      else Some (goto Killed st)
  | Ldmp d =>
      if dmp_on st then
        let st' := set_data d st in
        Some (if callback st then emit (__print_data (data st')) st' else st')
      else None
  end.

Fixpoint run (i : input) (ls : list label) (st : state) : option state :=
  match ls with
  | [] => Some st
  | l :: ls' =>
      match exec i l st with
      | Some st' => run i ls' st'
      | None => None
      end
  end.

(** The states a run on input [i] can be in. *)
Definition reachable (i : input) (st : state) : Prop :=
  exists ls, run i ls (initial i) = Some st.

(** *** What reaches the terminal: printf's conversions

    The characters a list of calls puts on [stdout], with a converted
    number kept as the number and its field width and precision. *)
Inductive printed : Set :=
| Pchar (c : ascii)
| Pfixed (width precision : nat) (x : float)    (* a %w.pf conversion *)
| Pint_char (n : Z)                             (* a %c conversion *)
| Pbad.                                         (* a conversion without its argument *)

(** The decimal number at the head of a string, and what follows it. *)
Fixpoint read_nat (acc : nat) (s : string) : nat * string :=
  match s with
  | String c s' =>
      if isdigit c then read_nat (10 * acc + (nat_of_ascii c - 48))%nat s'
      else (acc, s)
  | EmptyString => (acc, s)
  end.

(** A conversion specification, after its [%]: width, [.] precision
    and the conversion character; the rest of the format follows. *)
Definition read_conversion (s : string) : nat * nat * option ascii * string :=
  let (w, s1) := read_nat 0 s in
  let (p, s2) :=
    match s1 with
    | String "." s1' => read_nat 0 s1'
    | _ => (6%nat, s1)
    end in
  match s2 with
  | String c s3 => (w, p, Some c, s3)
  | EmptyString => (w, p, None, s2)
  end.

Fixpoint format_loop (fuel : nat) (fmt : string) (args : list arg) : list printed :=
  match fuel with
  | O => []
  | S fuel' =>
      match fmt with
      | EmptyString => []
      | String "%" fmt' =>
          match read_conversion fmt' with
          | (_, _, Some "%"%char, rest) => Pchar "%" :: format_loop fuel' rest args
          | (w, p, Some "f"%char, rest) =>
              match args with
              | Adouble x :: args' => Pfixed w p x :: format_loop fuel' rest args'
              | _ => [Pbad]
              end
          | (_, _, Some "c"%char, rest) =>
              match args with
              | Aint n :: args' => Pint_char n :: format_loop fuel' rest args'
              | _ => [Pbad]
              end
          | _ => [Pbad]
          end
      | String c fmt' => Pchar c :: format_loop fuel' fmt' args
      end
  end.

Definition printf (fmt : string) (args : list arg) : list printed :=
  format_loop (String.length fmt) fmt args.

Fixpoint stdout_of (es : list event) : list printed :=
  match es with
  | Eprintf fmt args :: es' => printf fmt args ++ stdout_of es'
  | _ :: es' => stdout_of es'
  | [] => []
  end.

(** ** Vocabulary of the statements *)

(** All the options the scanner finds from state [d] on. *)
Definition scan (ord : ordering_t) (argc : Z) (d : getopt_data)
  : list (Z * option string) :=
  getopt_seq (S (unscanned d)) ord argc optstring d.

(** The options of a command line, as [getopt] reports them one by one:
    the value returned and [optarg]. *)
Definition options (i : input) : list (Z * option string) :=
  scan (ordering i) (Z.of_nat (List.length (argv i))) (getopt_init (argv i)).

(** The option loop, run on the list of what the scanner reports. *)
Fixpoint option_fold (opts : list (Z * option string)) (v : vars)
    (out : list event) : loop_result :=
  match opts with
  | [] => loop_done v (out ++ [Egetopt (-1)])
  | (c, a) :: opts' =>
      match option_switch c a v (out ++ [Egetopt c]) with
      | body_break v' out' => option_fold opts' v' out'
      | body_return rc out' => loop_return rc out'
      | body_null out' => loop_null out'
      end
  end.


Definition has_option (c : ascii) (opts : list (Z * option string)) : bool :=
  existsb (fun o => fst o =? chr c) opts.

(** The rate of the last [-r] among the options. *)
Fixpoint rate_of (opts : list (Z * option string)) : option Z :=
  match opts with
  | [] => None
  | (c, a) :: opts' =>
      match rate_of opts' with
      | Some r => Some r
      | None => if c =? chr "r" then option_map atoi a else None
      end
  end.

Definition rate_ok (n : Z) : bool := (4 <=? n) && (n <=? 200).

(** An option the loop takes without returning. *)
Definition accepted (o : Z * option string) : bool :=
  if fst o =? chr "r" then
    match snd o with
    | Some s => rate_ok (atoi s)
    | None => false
    end
  else (fst o =? chr "m") || (fst o =? chr "o").


(** A [-r] with a rate out of range. *)
Definition bad_rate (o : Z * option string) : bool :=
  (fst o =? chr "r") && negb (accepted o).

(** The usage message is part of what was printed. *)
Definition prints_usage (o : list event) : Prop :=
  exists pre post, o = pre ++ __print_usage ++ post.

(** The events of the option scan and of the menu: calls of [getopt]
    and [printf] only. *)
Definition plain (e : event) : bool :=
  match e with
  | Egetopt _ | Eprintf _ _ => true
  | _ => false
  end.

(** The events of the idle loop: sleeps and what the callback prints. *)
Definition idle (e : event) : bool :=
  match e with
  | Eusleep _ | Eprintf _ _ | Efflush => true
  | _ => false
  end.

(** [main] returns -1 from lines 150-202 having printed [o]: its first
    step ends the run, with the IMU never touched. *)
Definition fails_before_imu (i : input) (o : list event) : Prop :=
  forallb plain o = true /\
  forall ret, exec i (Lmain ret) (initial i)
              = Some (goto (Returned (-1)) (emit o (initial i))).

(** The main thread has reached line 209 with configuration [c] and the
    library call there returns [ret]. *)
Definition initializes (i : input) (c : config) (ret : Z) : Prop :=
  exists st,
    run i [Lmain 0; Lmain 0; Lmain 0; Lmain ret] (initial i) = Some st /\
    exists o, forallb plain o = true /\
              out st = o ++ [Esignal; Einitialize_dmp c ret].

(** The orientation a digit of the menu stands for. *)
Definition orientation_of_digit (c : ascii) : option rc_mpu_orientation_t :=
  if (chr "1" <=? chr c) && (chr c <=? chr "8") then
    nth_error
      [ ORIENTATION_Z_UP; ORIENTATION_Z_DOWN; ORIENTATION_X_UP; ORIENTATION_X_DOWN;
        ORIENTATION_Y_UP; ORIENTATION_Y_DOWN; ORIENTATION_X_FORWARD; ORIENTATION_X_BACK ]
      (Z.to_nat (chr c - chr "1"))
  else None.

(** A character that neither selects an orientation nor quits. *)
Definition passed_over (c : ascii) : bool :=
  match orientation_of_digit c with
  | Some _ => false
  | None => negb (Ascii.eqb c "q")
  end.

(** What the prompt prints for the characters it passes over: nothing
    for a newline, a complaint for any other. *)
Definition complaints (cs : list ascii) : list event :=
  flat_map
    (fun c => if Ascii.eqb c LF then [] else [Eprintf (line "invalid input") []])
    cs.

(** What the scanner can report for the option string of the program:
    one of its four letters, [-r] and [-m] with an argument, or ['?']. *)
Definition reported (o : Z * option string) : Prop :=
  (fst o = chr "r" /\ exists s, snd o = Some s) \/
  (fst o = chr "m" /\ exists s, snd o = Some s) \/
  (fst o = chr "o" /\ snd o = None) \/
  (fst o = chr "h" /\ snd o = None) \/
  (fst o = chr "?" /\ snd o = None).

(** What the options taken so far have done to the variables of [main]. *)
Definition after_options (opts : list (Z * option string)) (v v' : vars) : Prop :=
  show_something v' = (if has_option "r" opts then 1 else show_something v) /\
  orientation_menu v' = (if has_option "o" opts then 1 else orientation_menu v) /\
  enable_mag v' = (if has_option "m" opts then 1 else enable_mag v) /\
  gpio_interrupt_pin_chip (conf v') = gpio_interrupt_pin_chip (conf v) /\
  gpio_interrupt_pin (conf v') = gpio_interrupt_pin (conf v) /\
  i2c_bus (conf v') = i2c_bus (conf v) /\
  other_fields (conf v') = other_fields (conf v) /\
  orient (conf v') = orient (conf v) /\
  enable_magnetometer (conf v')
    = (if has_option "m" opts then 1 else enable_magnetometer (conf v)) /\
  dmp_sample_rate (conf v')
    = match rate_of opts with
      | Some r => r
      | None => dmp_sample_rate (conf v)
      end.

Definition getopt_calls (opts : list (Z * option string)) : list event :=
  map (fun o => Egetopt (fst o)) opts.

Definition vars0 : vars := mk_vars 0 initial_conf 0 0.

(** What [main] has done when it enters the idle loop, given the
    variables [v] and the events [o] that lines 150-202 leave. *)
Definition idle_prefix (v : vars) (o : list event) : list event :=
  o ++ [Esignal; Einitialize_dmp (conf v) 0] ++ __print_header ++ [Eset_dmp_callback].

Definition flags (st : state) (h d c : bool) : Prop :=
  handler st = h /\ dmp_on st = d /\ callback st = c.

(** The shape of a state at each program counter, for a run whose first
    part ends in [cfg]. *)
Definition shape (i : input) (cfg : configure_result) (st : state) : Prop :=
  match cfg with
  | configured v s o =>
      match pc st with
      | L150 => st = initial i
      | L205 => flags st false false false /\ locals st = v /\ out st = o
      | L206 | L209 =>
          flags st true false false /\ locals st = v /\ out st = o ++ [Esignal]
      | L210 =>
          flags st true false false /\
          exists ret, ret <> 0 /\
            out st = o ++ [Esignal; Einitialize_dmp (conf v) ret]
      | L211 =>
          flags st true false false /\
          exists ret, ret <> 0 /\
            out st = o ++ [Esignal; Einitialize_dmp (conf v) ret;
                           Eprintf (line "rc_mpu_initialize_failed") []]
      | L216 =>
          flags st true true false /\
          out st = o ++ [Esignal; Einitialize_dmp (conf v) 0]
      | L219 =>
          flags st true true false /\
          out st = o ++ [Esignal; Einitialize_dmp (conf v) 0] ++ __print_header
      | L223 | L223_usleep =>
          flags st true true true /\
          exists tail, forallb idle tail = true /\
            out st = idle_prefix v o ++ tail
      | L226 =>
          flags st true true true /\ running st = 0 /\
          exists tail, forallb idle tail = true /\
            out st = idle_prefix v o ++ tail
      | L227 =>
          flags st true false true /\ running st = 0 /\
          exists tail, forallb idle tail = true /\
            out st = idle_prefix v o ++ tail ++ [Epower_off]
      | L228 =>
          flags st true false true /\ running st = 0 /\
          exists tail, forallb idle tail = true /\
            out st = idle_prefix v o ++ tail
                       ++ [Epower_off; Eprintf (String LF EmptyString) []]
      | L229 =>
          flags st true false true /\ running st = 0 /\
          exists tail, forallb idle tail = true /\
            out st = idle_prefix v o ++ tail
                       ++ [Epower_off; Eprintf (String LF EmptyString) []; Efflush]
      | Returned rc =>
          (rc = -1 /\ dmp_on st = false /\
           exists ret, ret <> 0 /\
             out st = o ++ [Esignal; Einitialize_dmp (conf v) ret;
                            Eprintf (line "rc_mpu_initialize_failed") []]) \/
          (rc = 0 /\ running st = 0 /\ dmp_on st = false /\
           exists tail, forallb idle tail = true /\
             out st = idle_prefix v o ++ tail
                        ++ [Epower_off; Eprintf (String LF EmptyString) []; Efflush])
      | Exited _ => False
      | Killed => dmp_on st = false /\ (out st = [] \/ out st = o)
      end
  | configure_return rc o =>
      match pc st with
      | L150 => st = initial i
      | Returned rc' => rc' = rc /\ dmp_on st = false /\ out st = o
      | Killed => dmp_on st = false /\ out st = []
      | _ => False
      end
  | configure_exit status o =>
      match pc st with
      | L150 => st = initial i
      | Exited status' => status' = status /\ dmp_on st = false /\ out st = o
      | Killed => dmp_on st = false /\ out st = []
      | _ => False
      end
  | configure_null o =>
      match pc st with
      | L150 => st = initial i
      | Killed => dmp_on st = false /\ (out st = [] \/ out st = o)
      | _ => False
      end
  | configure_fuel =>
      match pc st with
      | L150 => st = initial i
      | Killed => dmp_on st = false /\ out st = []
      | _ => False
      end
  end.

Definition inv (i : input) (st : state) : Prop :=
  shape i (main_configure (ordering i) (argv i) (stdin i)) st.

Definition events_of (cfg : configure_result) : list event :=
  match cfg with
  | configured _ _ o | configure_return _ o | configure_exit _ o
  | configure_null o => o
  | configure_fuel => []
  end.

Definition is_printf (e : event) : bool :=
  match e with
  | Eprintf _ _ => true
  | _ => false
  end.

(** The state a schedule leads to. *)
Definition state_after (i : input) (ls : list label) : state :=
  match run i ls (initial i) with
  | Some st => st
  | None => initial i
  end.

(** Every character of the string is a decimal digit. *)
Fixpoint all_digits (s : string) : bool :=
  match s with
  | String c s' => isdigit c && all_digits s'
  | EmptyString => true
  end.

Definition starts_with_digit (s : string) : bool :=
  match s with
  | String c _ => isdigit c
  | EmptyString => false
  end.

(** A [printf] with one integer argument is the one of line 184, with
    ['?'] as the character. *)
Definition opt_line_ok (e : event) : Prop :=
  forall fmt c, e = Eprintf fmt [Aint c] -> fmt = line "opt: %c" /\ c = chr "?".

Definition no_int_argument (e : event) : Prop :=
  forall fmt c, e <> Eprintf fmt [Aint c].

(** What [main] prints when no option asks for data (lines 193-197). *)
Definition nothing_to_show : list event :=
  Egetopt (-1) :: __print_usage
    ++ [Eprintf (line "please enable an option to print some data") []].

(** ** Vocabulary of the further properties *)

(** How many events of a kind there are. *)
Definition count (f : event -> bool) (es : list event) : nat :=
  List.length (filter f es).

Definition is_signal (e : event) : bool :=
  match e with Esignal => true | _ => false end.

Definition is_initialize (e : event) : bool :=
  match e with Einitialize_dmp _ _ => true | _ => false end.

Definition is_set_callback (e : event) : bool :=
  match e with Eset_dmp_callback => true | _ => false end.

Definition is_power_off (e : event) : bool :=
  match e with Epower_off => true | _ => false end.

(** A line of the orientation menu. *)
Definition menu_line (e : event) : bool :=
  match e with
  | Eprintf fmt [] => existsb (fun m => match m with
                                        | Eprintf f _ => String.eqb fmt f
                                        | _ => false
                                        end) prompt_menu
  | _ => false
  end.

(** Steps of the main thread, and steps of the others. *)
Definition is_main (l : label) : bool :=
  match l with Lmain _ => true | _ => false end.

Definition is_interrupt (l : label) : bool := negb (is_main l).

Definition main_steps (ls : list label) : nat :=
  List.length (filter is_main ls).

(** The samples a schedule delivers, in order. *)
Definition samples (ls : list label) : list rc_mpu_data_t :=
  flat_map (fun l => match l with Ldmp d => [d] | _ => [] end) ls.

(** The statements the main thread has yet to run, from the loop on,
    before it has returned, when [running] is 0. *)
Definition statements_left (p : pc_t) : nat :=
  match p with
  | L223_usleep => 6
  | L223 => 5
  | L226 => 4
  | L227 => 3
  | L228 => 2
  | L229 => 1
  | _ => 0
  end.

Definition winding_down (p : pc_t) : bool :=
  match p with
  | L223_usleep | L223 | L226 | L227 | L228 | L229 => true
  | Returned rc => rc =? 0
  | _ => false
  end.

(** What happens in the idle loop, one item for each thing that
    happens: the main thread sleeps ([None]) or the callback prints a
    sample. *)
Definition idle_events (xs : list (option rc_mpu_data_t)) : list event :=
  flat_map (fun x => match x with
                     | Some d => __print_data d
                     | None => [Eusleep 100000]
                     end) xs.

Definition printed_samples (xs : list (option rc_mpu_data_t)) : list rc_mpu_data_t :=
  flat_map (fun x => match x with Some d => [d] | None => [] end) xs.

(** What one call of the callback puts on the terminal. *)
Definition data_line (d : rc_mpu_data_t) : list printed :=
  stdout_of (__print_data d).

(** What the option loop has recorded when it ends. *)
Definition loop_events_of (r : loop_result) : list event :=
  match r with
  | loop_done _ o | loop_return _ o | loop_null o => o
  | loop_fuel => []
  end.

End Program.

(** ** One vendor: librobotcontrol on the BeagleBone Blue

    The values of the library's headers, to run the definitions on
    concrete inputs.  The fields of the configuration struct that the
    program never names are kept as one token. *)
Definition RAD_TO_DEG_value : float := 0x1.ca5dc1a6394b6p+5%float.  (* 57.295779513 *)

#[export] Instance librobotcontrol : robotcontrol := {|
  config_other := string;
  rc_mpu_default_config :=
    mk_config 3 21 2 0 100 ORIENTATION_Z_UP "vendor defaults";
  TB_PITCH_X := 0;
  TB_ROLL_Y := 1;
  TB_YAW_Z := 2;
  RAD_TO_DEG := RAD_TO_DEG_value
|}.

(** Command lines and schedules used below. *)

(** [print_data -r 50 -m 1 -o], with "x", newline, "3" typed at the menu. *)
Definition run_full : input :=
  mk_input ["print_data"; "-r"; "50"; "-m"; "1"; "-o"] PERMUTE ["x"; LF; "3"]%char.

(** Six statements of the main thread: it is at the loop test. *)
Definition to_the_loop : list label :=
  [Lmain 0; Lmain 0; Lmain 0; Lmain 0; Lmain 0; Lmain 0].

Definition run_help : input := mk_input ["print_data"; "-h"] PERMUTE [].
Definition run_rate_7 : input := mk_input ["print_data"; "-r"; "7"] PERMUTE [].


(** [print_data -o], with "3" on the standard input. *)
Definition run_o_only : input := mk_input ["print_data"; "-o"] PERMUTE ["3"]%char.

(** [print_data -r 50 -o], with "x", "q", "1" typed at the menu. *)
Definition run_quit : input :=
  mk_input ["print_data"; "-r"; "50"; "-o"] PERMUTE ["x"; "q"; "1"]%char.

(** [print_data -o -r 50], with "x" and a newline typed at the menu
    before the end of the input. *)
Definition run_no_choice : input :=
  mk_input ["print_data"; "-o"; "-r"; "50"] PERMUTE ["x"; LF]%char.

Definition run_rate_hz : input := mk_input ["print_data"; "-r"; "50Hz"] PERMUTE [].

(** The five statements of the main thread from the loop test, once
    [running] is 0, to the return. *)
Definition wind_down : list label :=
  [Lmain 0; Lmain 0; Lmain 0; Lmain 0; Lmain 0].

Definition sample_a : rc_mpu_data_t :=
  mk_data (fun n => match n with
                    | O => 1%float
                    | S O => (-2)%float
                    | _ => 0.5%float
                    end).

Definition sample_b : rc_mpu_data_t := mk_data (fun _ => 0.25%float).

(** * Theorems *)

(** ** The scanner *)

Lemma chr_inj (a b : ascii) : chr a = chr b -> a = b.
Proof.
  unfold chr. intros H. apply N2Z.inj in H.
  rewrite <- (ascii_N_embedding a), <- (ascii_N_embedding b). now rewrite H.
Qed.

Lemma skip_nonoptions_le (l : list string) :
  (list_sum (map (fun e => S (String.length e)) (skip_nonoptions l))
   <= list_sum (map (fun e => S (String.length e)) l))%nat.
Proof.
  induction l as [|e l IH]; simpl; [lia|].
  destruct (NONOPTION_P e); simpl; lia.
Qed.

Lemma skip_nonoptions_app l1 l2 :
  forallb NONOPTION_P l1 = true -> skip_nonoptions (l1 ++ l2) = skip_nonoptions l2.
Proof.
  induction l1 as [|e l1 IH]; [reflexivity|]. simpl. intros H.
  apply andb_prop in H as [-> H]. now apply IH.
Qed.




Lemma next_option_char_less ord d c s' rest :
  next_option_char ord d = Some (c, s', rest) ->
  (String.length s' + list_sum (map (fun e => S (String.length e)) rest)
   < unscanned d)%nat.
Proof.
  unfold next_option_char, unscanned.
  destruct (nextchar d) as [|a s].
  - simpl.
    set (l := match ord with PERMUTE => _ | REQUIRE_ORDER => _ end).
    assert (Hl : (list_sum (map (fun e => S (String.length e)) l)
                  <= list_sum (map (fun e => S (String.length e)) (pending d)))%nat).
    { subst l. destruct ord; [lia | apply skip_nonoptions_le]. }
    destruct l as [|e l']; [discriminate|].
    destruct (String.eqb e "--"); [discriminate|].
    destruct (NONOPTION_P e); [discriminate|].
    destruct e as [|x [|y t]]; try discriminate.
    intros H; injection H as <- <- <-. simpl in Hl |- *. lia.
  - intros H; injection H as <- <- <-. simpl. lia.
Qed.

(** A call that reports an option leaves less to scan. *)
Lemma getopt_decreases ord argc os d c d' :
  getopt ord argc os d = (c, d') -> c <> -1 ->
  (unscanned d' < unscanned d)%nat.
Proof.
  unfold getopt. destruct (argc <? 1); [intros H; injection H as <- _; congruence|].
  destruct (next_option_char ord d) as [[[a s'] rest]|] eqn:Hn;
    [|intros H; injection H as <- _; congruence].
  apply next_option_char_less in Hn.
  intros H _.
  repeat match type of H with
         | (if ?b then _ else _) = _ => destruct b
         | match ?x with _ => _ end = _ => destruct x
         end;
    injection H as _ <-; unfold unscanned in *; simpl in *; lia.
Qed.

(** More fuel than there is to scan changes nothing. *)
Lemma getopt_seq_fuel ord argc os fuel1 : forall fuel2 d,
  (unscanned d < fuel1)%nat -> (unscanned d < fuel2)%nat ->
  getopt_seq fuel1 ord argc os d = getopt_seq fuel2 ord argc os d.
Proof.
  induction fuel1 as [|fuel1 IH]; intros fuel2 d H1 H2; [lia|].
  destruct fuel2 as [|fuel2]; [lia|]. simpl.
  destruct (getopt ord argc os d) as [c d'] eqn:Hg.
  destruct (Z.eqb_spec c (-1)) as [|Hc]; [reflexivity|].
  pose proof (getopt_decreases _ _ _ _ _ _ Hg Hc).
  f_equal. apply IH; lia.
Qed.

Lemma scan_unfold ord argc d :
  scan ord argc d =
  let (c, d') := getopt ord argc optstring d in
  if c =? -1 then [] else (c, optarg d') :: scan ord argc d'.
Proof.
  unfold scan at 1. simpl.
  destruct (getopt ord argc optstring d) as [c d'] eqn:Hg.
  destruct (Z.eqb_spec c (-1)) as [|Hc]; [reflexivity|].
  pose proof (getopt_decreases _ _ _ _ _ _ Hg Hc).
  f_equal. apply getopt_seq_fuel; lia.
Qed.

Lemma getopt_reported ord argc d c d' :
  getopt ord argc optstring d = (c, d') -> c <> -1 -> reported (c, optarg d').
Proof.
  unfold getopt, reported.
  destruct (argc <? 1); [intros H; injection H as <- _; congruence|].
  destruct (next_option_char ord d) as [[[a s'] rest]|];
    [|intros H; injection H as <- _; congruence].
  intros H _. unfold optstring in H. cbn [strchr] in H.
  destruct (Ascii.eqb_spec "r" a) as [<-|Hr].
  { simpl in H. destruct s', rest; injection H as <- <-; simpl; eauto 10. }
  destruct (Ascii.eqb_spec ":" a) as [<-|Hc].
  { simpl in H. injection H as <- <-; simpl; eauto 10. }
  destruct (Ascii.eqb_spec "m" a) as [<-|Hm].
  { simpl in H. destruct s', rest; injection H as <- <-; simpl; eauto 10. }
  destruct (Ascii.eqb_spec "h" a) as [<-|Hh].
  { simpl in H. injection H as <- <-; simpl; eauto 10. }
  destruct (Ascii.eqb_spec "o" a) as [<-|Ho].
  { simpl in H. injection H as <- <-; simpl; eauto 10. }
  simpl in H. injection H as <- <-; simpl; eauto 10.
Qed.

Lemma scan_reported ord argc d : Forall reported (scan ord argc d).
Proof.
  remember (S (unscanned d)) as n eqn:Hn.
  assert (Hlt : (unscanned d < n)%nat) by lia. clear Hn.
  revert d Hlt. induction n as [|n IH]; intros d Hlt; [lia|].
  rewrite scan_unfold.
  destruct (getopt ord argc optstring d) as [c d'] eqn:Hg.
  destruct (Z.eqb_spec c (-1)) as [|Hc]; [constructor|].
  pose proof (getopt_decreases _ _ _ _ _ _ Hg Hc).
  constructor; [eapply getopt_reported; eauto | apply IH; lia].
Qed.


Section Proofs.

Context {RC : robotcontrol}.

(** ** The option loop *)

(** The loop of the program, with the fuel [main] gives it, does what
    [option_fold] does on the options of the command line: the fuel is
    never used up. *)
Lemma option_loop_scan ord argc fuel : forall d v o,
  1 < argc -> (unscanned d < fuel)%nat ->
  option_loop fuel ord argc d v o = option_fold (scan ord argc d) v o.
Proof.
  induction fuel as [|fuel IH]; intros d v o Hargc Hlt; [lia|].
  simpl. rewrite scan_unfold.
  destruct (getopt ord argc optstring d) as [c d'] eqn:Hg.
  destruct (Z.eqb_spec c (-1)) as [->|Hc]; [reflexivity|].
  pose proof (getopt_decreases _ _ _ _ _ _ Hg Hc).
  assert (Hgt : (argc >? 1) = true) by lia. rewrite Hgt. simpl.
  destruct (option_switch c (optarg d') v (o ++ [Egetopt c])); try reflexivity.
  apply IH; [assumption | lia].
Qed.

Lemma option_loop_options ord av v o :
  option_loop (scan_budget av) ord (Z.of_nat (List.length av)) (getopt_init av) v o
  = option_fold (scan ord (Z.of_nat (List.length av)) (getopt_init av)) v o.
Proof.
  destruct av as [|a0 [|a1 av]].
  - reflexivity.
  - destruct ord; reflexivity.
  - apply option_loop_scan; [simpl List.length; lia | unfold scan_budget; lia].
Qed.

Lemma rate_ok_test (n : Z) : ((n >? 200) || (n <? 4)) = negb (rate_ok n).
Proof.
  unfold rate_ok. rewrite Z.gtb_ltb.
  destruct (Z.ltb_spec 200 n), (Z.ltb_spec n 4), (Z.leb_spec 4 n), (Z.leb_spec n 200);
    simpl; try reflexivity; lia.
Qed.

Lemma option_switch_accepted c a v o :
  reported (c, a) -> accepted (c, a) = true ->
  exists v', option_switch c a v o = body_break v' o /\
             after_options [(c, a)] v v'.
Proof.
  unfold reported, accepted, option_switch, after_options, has_option.
  simpl fst; simpl snd.
  intros [[-> [s ->]]|[[-> [s ->]]|[[-> ->]|[[-> ->]|[-> ->]]]]] Hacc.
  - change (chr "r" =? chr "r") with true in *. cbv iota in *.
    rewrite rate_ok_test, Hacc. simpl negb. cbv iota.
    eexists; split; [reflexivity|].
    cbn [rate_of existsb fst option_map orb show_something orientation_menu
         enable_mag conf].
    change (chr "r" =? chr "r") with true.
    change (chr "r" =? chr "o") with false.
    change (chr "r" =? chr "m") with false.
    simpl. tauto.
  - change (chr "m" =? chr "r") with false. change (chr "m" =? chr "m") with true.
    cbv iota. eexists; split; [reflexivity|].
    cbn [rate_of existsb fst option_map orb show_something orientation_menu
         enable_mag conf].
    change (chr "m" =? chr "r") with false.
    change (chr "m" =? chr "o") with false.
    change (chr "m" =? chr "m") with true.
    simpl. tauto.
  - change (chr "o" =? chr "r") with false. change (chr "o" =? chr "m") with false.
    change (chr "o" =? chr "o") with true.
    cbv iota. eexists; split; [reflexivity|].
    cbn [rate_of existsb fst option_map orb show_something orientation_menu
         enable_mag conf].
    change (chr "o" =? chr "r") with false.
    change (chr "o" =? chr "o") with true.
    change (chr "o" =? chr "m") with false.
    simpl. tauto.
  - discriminate Hacc.
  - discriminate Hacc.
Qed.

Lemma after_options_nil v : after_options [] v v.
Proof. unfold after_options; simpl; tauto. Qed.

Lemma after_options_cons x t v v1 v' :
  after_options [x] v v1 -> after_options t v1 v' -> after_options (x :: t) v v'.
Proof.
  unfold after_options, has_option. destruct x as [c a].
  cbn [existsb rate_of fst].
  intros (H1 & H2 & H3 & H4 & H5 & H6 & H7 & H8 & H9 & H10)
         (K1 & K2 & K3 & K4 & K5 & K6 & K7 & K8 & K9 & K10).
  rewrite K1, K2, K3, K4, K5, K6, K7, K8, K9, K10,
          H1, H2, H3, H4, H5, H6, H7, H8, H9, H10.
  rewrite !orb_false_r.
  destruct (c =? chr "r"), (c =? chr "o"), (c =? chr "m"),
    (existsb (fun o => fst o =? chr "r") t),
    (existsb (fun o => fst o =? chr "o") t),
    (existsb (fun o => fst o =? chr "m") t),
    (rate_of t), a; simpl; tauto.
Qed.

Lemma prints_usage_app o o' : prints_usage (o ++ __print_usage ++ o').
Proof. now exists o, o'. Qed.

Lemma option_switch_rejected c a v o :
  reported (c, a) -> accepted (c, a) = false ->
  exists more, option_switch c a v o = body_return (-1) (o ++ more) /\
               forallb plain more = true /\
               (bad_rate (c, a) = false -> prints_usage (o ++ more)).
Proof.
  unfold reported, accepted, bad_rate, option_switch.
  simpl fst; simpl snd.
  intros [[-> [s ->]]|[[-> [s ->]]|[[-> ->]|[[-> ->]|[-> ->]]]]] Hacc.
  - change (chr "r" =? chr "r") with true in *. cbv iota in *.
    rewrite rate_ok_test, Hacc. simpl negb. cbv iota.
    eexists; split; [reflexivity|]. split; [reflexivity|].
    unfold accepted. simpl fst; simpl snd.
    change (chr "r" =? chr "r") with true. cbv iota. rewrite Hacc. discriminate.
  - discriminate Hacc.
  - discriminate Hacc.
  - change (chr "h" =? chr "r") with false. change (chr "h" =? chr "m") with false.
    change (chr "h" =? chr "o") with false. change (chr "h" =? chr "h") with true.
    cbv iota. exists __print_usage. split; [reflexivity|]. split; [reflexivity|].
    intros _. exists o, []. now rewrite app_nil_r.
  - change (chr "?" =? chr "r") with false. change (chr "?" =? chr "m") with false.
    change (chr "?" =? chr "o") with false. change (chr "?" =? chr "h") with false.
    cbv iota. eexists. split; [reflexivity|]. split; [reflexivity|].
    intros _.
    exists (o ++ [Eprintf (line "opt: %c") [Aint (chr "?")];
                  Eprintf (line "invalid argument") []]), [].
    now rewrite app_nil_r, <- app_assoc.
Qed.

Lemma getopt_calls_plain opts : forallb plain (getopt_calls opts) = true.
Proof. induction opts; simpl; auto. Qed.

(** Every option is accepted: the loop ends when the scanner does, and
    nothing but the calls of the scanner has been recorded. *)
Lemma option_fold_done opts : forall v o,
  Forall reported opts -> forallb accepted opts = true ->
  exists v', option_fold opts v o
             = loop_done v' (o ++ getopt_calls opts ++ [Egetopt (-1)]) /\
             after_options opts v v'.
Proof.
  induction opts as [|[c a] t IH]; intros v o Hrep Hacc.
  - exists v. split; [reflexivity | apply after_options_nil].
  - inversion Hrep as [|? ? Hx Ht]; subst.
    simpl in Hacc. apply andb_prop in Hacc as [Ha Hacc].
    destruct (option_switch_accepted c a v (o ++ [Egetopt c]) Hx Ha) as (v1 & Hs & Hv1).
    destruct (IH v1 (o ++ [Egetopt c]) Ht Hacc) as (v' & Hf & Hv').
    exists v'. split.
    + simpl. rewrite Hs, Hf. f_equal. now rewrite <- app_assoc.
    + eapply after_options_cons; eauto.
Qed.

(** Some option is not accepted: the loop returns -1 at the first such
    option.  The usage message is printed unless that option is a [-r]
    with a rate out of range. *)
Lemma option_fold_rejected opts : forall v o,
  Forall reported opts -> forallb accepted opts = false ->
  exists more, option_fold opts v o = loop_return (-1) (o ++ more) /\
               forallb plain more = true /\
               (existsb bad_rate opts = false -> prints_usage (o ++ more)).
Proof.
  induction opts as [|[c a] t IH]; intros v o Hrep Hacc; [discriminate|].
  inversion Hrep as [|? ? Hx Ht]; subst.
  simpl in Hacc. simpl existsb.
  destruct (accepted (c, a)) eqn:Ha.
  - simpl in Hacc.
    destruct (option_switch_accepted c a v (o ++ [Egetopt c]) Hx Ha) as (v1 & Hs & _).
    destruct (IH v1 (o ++ [Egetopt c]) Ht Hacc) as (more & Hf & Hp & Hu).
    exists (Egetopt c :: more). simpl. rewrite Hs, Hf.
    split; [f_equal; now rewrite <- app_assoc|]. split; [assumption|].
    intros Hb. apply orb_false_elim in Hb as [_ Hb].
    replace (o ++ Egetopt c :: more) with ((o ++ [Egetopt c]) ++ more)
      by now rewrite <- app_assoc.
    auto.
  - destruct (option_switch_rejected c a v (o ++ [Egetopt c]) Hx Ha) as (more & Hs & Hp & Hu).
    exists (Egetopt c :: more). simpl. rewrite Hs.
    split; [f_equal; now rewrite <- app_assoc|]. split; [assumption|].
    intros Hb. apply orb_false_elim in Hb as [Hb _].
    replace (o ++ Egetopt c :: more) with ((o ++ [Egetopt c]) ++ more)
      by now rewrite <- app_assoc.
    auto.
Qed.

(** ** The orientation prompt *)

Lemma passed_over_intro (c : ascii) :
  c <> "1"%char -> c <> "2"%char -> c <> "3"%char -> c <> "4"%char ->
  c <> "5"%char -> c <> "6"%char -> c <> "7"%char -> c <> "8"%char ->
  c <> "q"%char -> passed_over c = true.
Proof.
  intros H1 H2 H3 H4 H5 H6 H7 H8 Hq.
  unfold passed_over, orientation_of_digit.
  destruct (Ascii.eqb_spec c "q") as [|_]; [contradiction|].
  destruct ((chr "1" <=? chr c) && (chr c <=? chr "8")) eqn:Hr; [|reflexivity].
  exfalso. apply andb_prop in Hr as [Ha Hb].
  apply Z.leb_le in Ha, Hb.
  change (chr "1") with 49 in Ha. change (chr "8") with 56 in Hb.
  assert (Hc : chr c = chr "1" \/ chr c = chr "2" \/ chr c = chr "3" \/
               chr c = chr "4" \/ chr c = chr "5" \/ chr c = chr "6" \/
               chr c = chr "7" \/ chr c = chr "8").
  { change (chr "1") with 49. change (chr "2") with 50. change (chr "3") with 51.
    change (chr "4") with 52. change (chr "5") with 53. change (chr "6") with 54.
    change (chr "7") with 55. change (chr "8") with 56. lia. }
  repeat destruct Hc as [Hc|Hc]; apply chr_inj in Hc; contradiction.
Qed.

Lemma prompt_loop_spec (stdin : list ascii) : forall o,
  exists pre,
    forallb passed_over pre = true /\
    ((stdin = pre /\
      prompt_loop stdin o
      = (prompt_return ORIENTATION_Z_UP, [], o ++ complaints pre)) \/
     (exists c x rest,
        stdin = pre ++ c :: rest /\ orientation_of_digit c = Some x /\
        prompt_loop stdin o = (prompt_return x, rest, o ++ complaints pre)) \/
     (exists rest,
        stdin = pre ++ "q"%char :: rest /\
        prompt_loop stdin o
        = (prompt_exit 0, rest,
           o ++ complaints pre ++ [Eprintf (line "Quitting") []]))).
Proof.
  induction stdin as [|c t IH]; intros o.
  - exists []. split; [reflexivity|]. left. simpl. now rewrite app_nil_r.
  - cbn [prompt_loop].
    destruct (Ascii.eqb_spec c "1") as [->|H1].
    { exists []. split; [reflexivity|]. right; left.
      exists "1"%char, ORIENTATION_Z_UP, t. simpl. now rewrite app_nil_r. }
    destruct (Ascii.eqb_spec c "2") as [->|H2].
    { exists []. split; [reflexivity|]. right; left.
      exists "2"%char, ORIENTATION_Z_DOWN, t. simpl. now rewrite app_nil_r. }
    destruct (Ascii.eqb_spec c "3") as [->|H3].
    { exists []. split; [reflexivity|]. right; left.
      exists "3"%char, ORIENTATION_X_UP, t. simpl. now rewrite app_nil_r. }
    destruct (Ascii.eqb_spec c "4") as [->|H4].
    { exists []. split; [reflexivity|]. right; left.
      exists "4"%char, ORIENTATION_X_DOWN, t. simpl. now rewrite app_nil_r. }
    destruct (Ascii.eqb_spec c "5") as [->|H5].
    { exists []. split; [reflexivity|]. right; left.
      exists "5"%char, ORIENTATION_Y_UP, t. simpl. now rewrite app_nil_r. }
    destruct (Ascii.eqb_spec c "6") as [->|H6].
    { exists []. split; [reflexivity|]. right; left.
      exists "6"%char, ORIENTATION_Y_DOWN, t. simpl. now rewrite app_nil_r. }
    destruct (Ascii.eqb_spec c "7") as [->|H7].
    { exists []. split; [reflexivity|]. right; left.
      exists "7"%char, ORIENTATION_X_FORWARD, t. simpl. now rewrite app_nil_r. }
    destruct (Ascii.eqb_spec c "8") as [->|H8].
    { exists []. split; [reflexivity|]. right; left.
      exists "8"%char, ORIENTATION_X_BACK, t. simpl. now rewrite app_nil_r. }
    destruct (Ascii.eqb_spec c "q") as [->|Hq].
    { exists []. split; [reflexivity|]. right; right. now exists t. }
    pose proof (passed_over_intro c H1 H2 H3 H4 H5 H6 H7 H8 Hq) as Hc.
    assert (Hstep : exists o', 
              o' = o ++ complaints [c] /\
              (if Ascii.eqb c LF then prompt_loop t o
               else prompt_loop t (o ++ [Eprintf (line "invalid input") []]))
              = prompt_loop t o').
    { unfold complaints. simpl. destruct (Ascii.eqb c LF); eexists; split;
        try reflexivity; now rewrite ?app_nil_r. }
    destruct Hstep as (o' & -> & ->).
    destruct (IH (o ++ complaints [c])) as (pre & Hpre & Hcases).
    exists (c :: pre). split; [simpl; now rewrite Hc|].
    assert (Hcomp : forall l, (o ++ complaints [c]) ++ complaints pre ++ l
                              = o ++ complaints (c :: pre) ++ l).
    { intros l. unfold complaints. simpl. now rewrite app_nil_r, <- !app_assoc. }
    destruct Hcases as [[-> Hr]|[(d & x & rest & -> & Hx & Hr)|(rest & -> & Hr)]].
    + left. split; [reflexivity|]. rewrite Hr. f_equal.
      specialize (Hcomp []). now rewrite !app_nil_r in Hcomp.
    + right; left. exists d, x, rest. split; [reflexivity|]. split; [assumption|].
      rewrite Hr. f_equal.
      specialize (Hcomp []). now rewrite !app_nil_r in Hcomp.
    + right; right. exists rest. split; [reflexivity|].
      rewrite Hr. f_equal. apply Hcomp.
Qed.

Lemma complaints_plain cs : forallb plain (complaints cs) = true.
Proof.
  induction cs as [|c cs IH]; [reflexivity|].
  unfold complaints in *. simpl. rewrite forallb_app, IH.
  destruct (Ascii.eqb c LF); reflexivity.
Qed.

Lemma orientation_prompt_plain stdin r s' o :
  __orientation_prompt stdin = (r, s', o) -> forallb plain o = true.
Proof.
  unfold __orientation_prompt.
  destruct (prompt_loop_spec stdin prompt_menu) as (pre & _ & H).
  pose proof (complaints_plain pre) as Hp.
  destruct H as [[_ H]|[(c & x & rest & _ & _ & H)|(rest & _ & H)]];
    rewrite H; intros E; injection E as _ _ <-;
    simpl; rewrite ?forallb_app, Hp; reflexivity.
Qed.

(** ** Lines 150-202 *)

(** How the first part of [main] ends, read off the options of the
    command line. *)
Lemma main_configure_spec (i : input) :
  match main_configure (ordering i) (argv i) (stdin i) with
  | configure_return rc o =>
      rc = -1 /\ forallb plain o = true /\
      (forallb accepted (options i) = false \/ has_option "r" (options i) = false) /\
      (existsb bad_rate (options i) = false -> prints_usage o)
  | configured v s o =>
      forallb accepted (options i) = true /\
      has_option "r" (options i) = true /\
      forallb plain o = true /\
      exists v0, after_options (options i) vars0 v0 /\
        if has_option "o" (options i) then
          exists x o',
            __orientation_prompt (stdin i) = (prompt_return x, s, o') /\
            v = mk_vars (show_something v0) (set_orient x (conf v0))
                  (enable_mag v0) (orientation_menu v0) /\
            o = (getopt_calls (options i) ++ [Egetopt (-1)]) ++ o'
        else
          v = v0 /\ s = stdin i /\ o = getopt_calls (options i) ++ [Egetopt (-1)]
  | configure_exit status o =>
      status = 0 /\ forallb plain o = true /\
      forallb accepted (options i) = true /\
      has_option "r" (options i) = true /\
      has_option "o" (options i) = true /\
      exists s' o',
        __orientation_prompt (stdin i) = (prompt_exit 0, s', o') /\
        o = (getopt_calls (options i) ++ [Egetopt (-1)]) ++ o'
  | configure_null _ => False
  | configure_fuel => False
  end.
Proof.
  unfold main_configure, options.
  rewrite option_loop_options. fold vars0.
  set (opts := scan (ordering i) (Z.of_nat (List.length (argv i))) (getopt_init (argv i))).
  pose proof (scan_reported (ordering i) (Z.of_nat (List.length (argv i)))
                (getopt_init (argv i))) as Hrep.
  fold opts in Hrep.
  destruct (forallb accepted opts) eqn:Hacc.
  - destruct (option_fold_done opts vars0 [] Hrep Hacc) as (v0 & -> & Hv0).
    pose proof Hv0 as (Hs & Hm & _).
    pose proof (getopt_calls_plain opts) as Hpl.
    rewrite Hs, Hm. cbn [show_something orientation_menu vars0].
    destruct (has_option "r" opts) eqn:Hr; cbn [Z.eqb negb].
    + destruct (has_option "o" opts) eqn:Ho; cbn [Z.eqb negb].
      * destruct (__orientation_prompt (stdin i)) as [[[x|status] s'] o'] eqn:Hp.
        -- pose proof (orientation_prompt_plain _ _ _ _ Hp) as Hpo.
           repeat split; try reflexivity.
           { simpl. rewrite !forallb_app, Hpl, Hpo. reflexivity. }
           exists v0. split; [assumption|]. exists x, o'. now rewrite Hs, Hm.
        -- pose proof (orientation_prompt_plain _ _ _ _ Hp) as Hpo.
           destruct (prompt_loop_spec (stdin i) prompt_menu) as (pre & _ & H).
           unfold __orientation_prompt in Hp. rewrite Hp in H.
           assert (status = 0) as ->.
           { destruct H as [[_ H]|[(c & x & rest & _ & _ & H)|(rest & _ & H)]];
               congruence. }
           repeat split; try reflexivity.
           { simpl. rewrite !forallb_app, Hpl, Hpo. reflexivity. }
           now exists s', o'.
      * repeat split; try reflexivity.
        { simpl. rewrite !forallb_app, Hpl. reflexivity. }
        exists v0. split; [assumption|]. now repeat split.
    + repeat split; try reflexivity.
      * simpl. rewrite !forallb_app, Hpl. reflexivity.
      * now right.
      * intros _. simpl. apply prints_usage_app.
  - destruct (option_fold_rejected opts vars0 [] Hrep Hacc) as (more & -> & Hpl & Hu).
    repeat split; try assumption. now left.
Qed.

(** ** The runs of [main] *)

Lemma inv_initial i : inv i (initial i).
Proof. unfold inv, shape. now destruct (main_configure _ _ _). Qed.

(** Taking apart the conjunctions, disjunctions and existentials among
    the hypotheses. *)
Ltac break_hyps :=
  repeat match goal with
    | H : _ /\ _ |- _ => destruct H
    | H : exists _, _ |- _ => destruct H
    | H : _ \/ _ |- _ => destruct H
    end.

Ltac norm_lists :=
  unfold idle_prefix in *;
  repeat (progress (rewrite <- ?app_assoc; cbn [app])).

Ltac conj_split := repeat match goal with |- _ /\ _ => split end.

Ltac close_tail :=
  match goal with
  | Hne : ?r <> 0 |- exists ret, ret <> 0 /\ _ =>
      exists r; split; [exact Hne | norm_lists; reflexivity]
  | H : forallb idle ?x = true |- exists tail, forallb idle tail = true /\ _ =>
      first
        [ exists x; split; [exact H | norm_lists; reflexivity]
        | exists (x ++ [Eusleep 100000]); split;
          [rewrite forallb_app, H; reflexivity | norm_lists; reflexivity]
        | match goal with
          | d : rc_mpu_data_t |- _ =>
              exists (x ++ __print_data d); split;
              [rewrite forallb_app, H; reflexivity | norm_lists; reflexivity]
          end ]
  | |- exists tail, forallb idle tail = true /\ _ =>
      exists []; split; [reflexivity | norm_lists; reflexivity]
  end.

Ltac close_shape :=
  norm_lists; conj_split; auto;
  first [ reflexivity | close_tail
        | left; conj_split; auto; close_tail
        | right; conj_split; auto; close_tail ].

Lemma inv_step i l st st' : inv i st -> exec i l st = Some st' -> inv i st'.
Proof.
  unfold inv, exec.
  destruct st as [p r dt lv h dm cb sl o].
  destruct (main_configure (ordering i) (argv i) (stdin i)) as [v s o0|rc o0|status o0|o0|] eqn:Hcfg.
  all: destruct p; cbn [shape pc terminated]; try contradiction; try discriminate.
  all: intros Hinv E; unfold main_step, flags in *;
    cbn [pc handler dmp_on callback out running locals data stdin_left] in *.
  all: try (injection Hinv as -> -> -> -> -> -> -> ->).
  all: break_hyps; subst.
  all: destruct l as [ret| |d]; try rewrite Hcfg in E;
    cbn [goto emit set_handler set_running set_dmp_on set_callback set_data
         __signal_handler pc handler dmp_on callback out running locals data
         stdin_left initial] in E;
    try discriminate E.
  all: try (destruct (ret =? 0) eqn:Hret; cbn [negb] in E).
  all: try (destruct (r =? 0) eqn:Hr; cbn [negb] in E).
  all: injection E as <-;
    cbn [goto emit set_handler set_running set_dmp_on set_callback set_data
         __signal_handler pc handler dmp_on callback out running locals data
         stdin_left initial].
  all: try (apply Z.eqb_eq in Hret; subst ret).
  all: try (apply Z.eqb_neq in Hret).
  all: try (apply Z.eqb_eq in Hr; subst r).
  all: try (conj_split; auto; fail).
  all: try (close_shape; fail).
Qed.

Lemma run_inv i ls : forall st st',
  inv i st -> run i ls st = Some st' -> inv i st'.
Proof.
  induction ls as [|l ls IH]; intros st st' Hinv Hrun; simpl in Hrun.
  - now injection Hrun as <-.
  - destruct (exec i l st) as [st1|] eqn:He; [|discriminate].
    eapply IH; [eapply inv_step; eauto | exact Hrun].
Qed.

Lemma reachable_inv i st : reachable i st -> inv i st.
Proof. intros [ls Hrun]. eapply run_inv; [apply inv_initial | exact Hrun]. Qed.

(** Taking apart [In e l] for a list built from known pieces. *)
Ltac in_cases :=
  repeat match goal with
    | H : False |- _ => destruct H
    | H : In _ (_ ++ _) |- _ => apply in_app_or in H; destruct H as [H|H]
    | H : In _ (_ :: _) |- _ => destruct H as [H|H]
    | H : In _ [] |- _ => destruct H
    | H : In ?e ?l, Hp : forallb ?f ?l = true |- _ =>
        apply (proj1 (forallb_forall f l) Hp) in H; simpl in H
    | H : @eq event _ _ |- _ => first [discriminate H | injection H as <- <-]
    | H : @eq bool _ _ |- _ => discriminate H
    end.

(** Closing a case in which the run did not get past lines 150-202:
    none of the events of the later lines is in [out st]. *)
Ltac absent_event st Hin :=
  destruct (pc st) eqn:?; try contradiction;
  break_hyps; subst;
  try match goal with H : out st = _ |- _ => rewrite H in Hin end;
  try (cbn in Hin; contradiction); exfalso; in_cases.

Lemma configure_plain i :
  forallb plain (events_of (main_configure (ordering i) (argv i) (stdin i))) = true.
Proof.
  pose proof (main_configure_spec i) as Hs.
  destruct (main_configure _ _ _); simpl; tauto.
Qed.

(** Every call of rc_mpu_initialize_dmp in a run is made with the
    configuration that lines 150-202 have put together. *)
Lemma initialize_dmp_conf i st c ret :
  reachable i st -> In (Einitialize_dmp c ret) (out st) ->
  exists v s o,
    main_configure (ordering i) (argv i) (stdin i) = configured v s o /\ c = conf v.
Proof.
  intros Hr Hin. apply reachable_inv in Hr. unfold inv in Hr.
  pose proof (configure_plain i) as Hs.
  destruct (main_configure (ordering i) (argv i) (stdin i)) as [v s o|rc o|status o|o|] eqn:Hcfg;
    cbn [shape events_of] in Hr, Hs; destruct (pc st);
    unfold flags, idle_prefix, __print_header in *;
    try contradiction;
    break_hyps; subst;
    try match goal with H : out st = _ |- _ => rewrite H in Hin end;
    try (cbn in Hin; contradiction);
    in_cases; eauto.
Qed.

(** ** C1: the configuration passed to rc_mpu_initialize_dmp *)

(** C1.  In every run of [main], every call of rc_mpu_initialize_dmp
    gets the vendor's default configuration with [i2c_bus] 2,
    [gpio_interrupt_pin_chip] 3 and [gpio_interrupt_pin] 21, changed
    only by the options: [dmp_sample_rate] is the rate of the last [-r]
    (there is one), [enable_magnetometer] is 1 if there is a [-m],
    [orient] is what the orientation prompt returned if there is a
    [-o]; every other field has its default value. *)
Theorem C1_initialize_dmp_configuration (i : input) (st : state) (c : config) (ret : Z) :
  reachable i st ->
  In (Einitialize_dmp c ret) (out st) ->
  i2c_bus c = 2 /\
  gpio_interrupt_pin_chip c = 3 /\
  gpio_interrupt_pin c = 21 /\
  other_fields c = other_fields rc_mpu_default_config /\
  has_option "r" (options i) = true /\
  dmp_sample_rate c
    = match rate_of (options i) with
      | Some r => r
      | None => dmp_sample_rate rc_mpu_default_config
      end /\
  enable_magnetometer c
    = (if has_option "m" (options i) then 1
       else enable_magnetometer rc_mpu_default_config) /\
  (if has_option "o" (options i) then
     exists s o', __orientation_prompt (stdin i) = (prompt_return (orient c), s, o')
   else orient c = orient rc_mpu_default_config).
Proof.
  intros Hr Hin.
  destruct (initialize_dmp_conf i st c ret Hr Hin) as (v & s & o & Hcfg & ->).
  pose proof (main_configure_spec i) as Hs. rewrite Hcfg in Hs.
  destruct Hs as (_ & Hrate & _ & v0 & Hv0 & Ho).
  unfold after_options in Hv0. cbn [vars0 conf] in Hv0.
  destruct Hv0 as (_ & _ & _ & Hchip & Hpin & Hbus & Hother & Horient & Hmag & Hsr).
  destruct (has_option "o" (options i)).
  - destruct Ho as (x & o' & Hp & -> & _).
    unfold set_orient.
    cbn [conf i2c_bus gpio_interrupt_pin_chip gpio_interrupt_pin other_fields
         dmp_sample_rate enable_magnetometer orient].
    rewrite Hchip, Hpin, Hbus, Hother, Hmag, Hsr.
    repeat split; try assumption; try reflexivity.
    now exists s, o'.
  - destruct Ho as (-> & _ & _).
    rewrite Hchip, Hpin, Hbus, Hother, Hmag, Hsr, Horient.
    repeat split; try assumption; reflexivity.
Qed.

(** ** C2: what the callback prints *)

Lemma stdout_of_app (a b : list event) :
  stdout_of (a ++ b) = stdout_of a ++ stdout_of b.
Proof.
  induction a as [|e a IH]; [reflexivity|].
  destruct e; simpl; rewrite IH; try reflexivity. now rewrite app_assoc.
Qed.

(** The callback can run only while the main thread is in the idle
    loop or about to power the IMU off. *)
Lemma callback_running i st :
  inv i st -> dmp_on st = true -> callback st = true ->
  terminated (pc st) = false.
Proof.
  unfold inv, shape, flags. intros Hinv Hd Hc.
  destruct (main_configure _ _ _); destruct (pc st) eqn:Hpc;
    try reflexivity; try contradiction;
    break_hyps; subst; try congruence;
    try (rewrite Hinv in Hc; discriminate Hc).
Qed.

(** C2.  Whatever the IMU data, one call of [__print_data] puts on the
    terminal a carriage return, a space, and then the three angles in
    the order pitch, roll, yaw, each the stored value times
    [RAD_TO_DEG], each in a field of width 6 with one decimal, separated
    by single spaces and followed by a space and a bar; nothing else.
    In a run, whenever the DMP interrupts with the callback registered,
    the new sample is stored in [data] and just this is added to what
    is on the terminal. *)
Theorem C2_print_data_output (d : rc_mpu_data_t) :
  stdout_of (__print_data d)
  = [ Pchar CR; Pchar " ";
      Pfixed 6 1 (dmp_TaitBryan d TB_PITCH_X * RAD_TO_DEG)%float; Pchar " ";
      Pfixed 6 1 (dmp_TaitBryan d TB_ROLL_Y * RAD_TO_DEG)%float; Pchar " ";
      Pfixed 6 1 (dmp_TaitBryan d TB_YAW_Z * RAD_TO_DEG)%float; Pchar " ";
      Pchar "|" ] /\
  forall i st,
    reachable i st -> dmp_on st = true -> callback st = true ->
    exists st',
      exec i (Ldmp d) st = Some st' /\ data st' = d /\
      stdout_of (out st') = stdout_of (out st) ++ stdout_of (__print_data d).
Proof.
  split; [reflexivity|].
  intros i st Hr Hd Hc.
  pose proof (callback_running i st (reachable_inv i st Hr) Hd Hc) as Ht.
  unfold exec. rewrite Ht, Hd, Hc.
  eexists. split; [reflexivity|]. split; [reflexivity|].
  cbn [emit set_data out data]. apply stdout_of_app.
Qed.

(** ** C8: the orientation prompt *)

(** C8.  For every input, the prompt passes over a run of characters
    that are neither ['1'] to ['8'] nor ['q'], printing "invalid input"
    for each of them that is not a newline, and then: at end of input
    it returns ORIENTATION_Z_UP; at a digit ['1'] to ['8'] it returns
    the orientation of that digit; at ['q'] it prints "Quitting" and
    exits with status 0. *)
Theorem C8_orientation_prompt (stdin : list ascii) :
  exists pre,
    forallb passed_over pre = true /\
    ((stdin = pre /\
      __orientation_prompt stdin
      = (prompt_return ORIENTATION_Z_UP, [], prompt_menu ++ complaints pre)) \/
     (exists c x rest,
        stdin = pre ++ c :: rest /\ orientation_of_digit c = Some x /\
        __orientation_prompt stdin
        = (prompt_return x, rest, prompt_menu ++ complaints pre)) \/
     (exists rest,
        stdin = pre ++ "q"%char :: rest /\
        __orientation_prompt stdin
        = (prompt_exit 0, rest,
           prompt_menu ++ complaints pre ++ [Eprintf (line "Quitting") []]))).
Proof. exact (prompt_loop_spec stdin prompt_menu). Qed.

(** The digits of the menu and their orientations. *)
Lemma orientation_of_digit_table :
  map orientation_of_digit ["1"; "2"; "3"; "4"; "5"; "6"; "7"; "8"; "0"; "9"; "q"]%char
  = [ Some ORIENTATION_Z_UP; Some ORIENTATION_Z_DOWN; Some ORIENTATION_X_UP;
      Some ORIENTATION_X_DOWN; Some ORIENTATION_Y_UP; Some ORIENTATION_Y_DOWN;
      Some ORIENTATION_X_FORWARD; Some ORIENTATION_X_BACK; None; None; None ].
Proof. reflexivity. Qed.

(** ** C3: the idle loop and the shutdown *)

Lemma loop_flags i st :
  inv i st -> pc st = L223 \/ pc st = L223_usleep ->
  handler st = true /\ dmp_on st = true /\ callback st = true.
Proof.
  unfold inv, shape, flags. intros Hinv [Hpc|Hpc]; rewrite Hpc in Hinv;
    destruct (main_configure _ _ _); try contradiction; tauto.
Qed.

(** A step taken inside the loop stays in the loop, unless it is the
    main thread finding [running] equal to 0. *)
Lemma loop_step i st l st' :
  inv i st -> pc st = L223 \/ pc st = L223_usleep ->
  exec i l st = Some st' ->
  pc st' = L223 \/ pc st' = L223_usleep \/
  (pc st' = L226 /\ running st = 0 /\ pc st = L223 /\ exists ret, l = Lmain ret).
Proof.
  intros Hinv Hpc He.
  destruct (loop_flags i st Hinv Hpc) as (Hh & Hd & Hc).
  unfold exec, main_step in He. rewrite Hh, Hd, Hc in He.
  destruct Hpc as [Hpc|Hpc]; rewrite Hpc in He; cbn [terminated] in He;
    destruct l as [ret| |d].
  - destruct (Z.eqb_spec (running st) 0) as [H0|H0]; cbn [negb] in He;
      injection He as <-; cbn [goto pc]; eauto 10.
  - injection He as <-. cbn. auto.
  - injection He as <-. cbn. auto.
  - injection He as <-. cbn. auto.
  - injection He as <-. cbn. auto.
  - injection He as <-. cbn. auto.
Qed.

(** Only the signal handler takes [running] to 0. *)
Lemma running_cleared i l st st' :
  exec i l st = Some st' -> running st <> 0 -> running st' = 0 -> l = Lsigint.
Proof.
  unfold exec. destruct (terminated (pc st)); [discriminate|].
  destruct l as [ret| |d]; [|reflexivity|].
  - unfold main_step. intros He Hn Hz. exfalso.
    destruct (pc st); try discriminate He;
      try (injection He as <-; cbn in Hz; congruence).
    + destruct (main_configure _ _ _); try discriminate He;
        injection He as <-; cbn in Hz; congruence.
    + destruct (negb (ret =? 0)); injection He as <-; cbn in Hz; congruence.
    + destruct (negb (running st =? 0)); injection He as <-; cbn in Hz; congruence.
  - intros He Hn Hz. exfalso.
    destruct (dmp_on st); [|discriminate].
    destruct (callback st); injection He as <-; cbn in Hz; congruence.
Qed.

(** In the loop with [running] not 0 the main thread sleeps and tests
    again. *)
Lemma loop_sleeps i ret st :
  pc st = L223 -> running st <> 0 ->
  exists st1, exec i (Lmain ret) st = Some st1 /\ pc st1 = L223_usleep /\
    exists st2, exec i (Lmain ret) st1 = Some st2 /\ pc st2 = L223 /\
                out st2 = out st ++ [Eusleep 100000].
Proof.
  intros Hpc Hn. unfold exec, main_step. rewrite Hpc. cbn [terminated].
  destruct (Z.eqb_spec (running st) 0) as [|_]; [contradiction|]. cbn [negb].
  eexists; split; [reflexivity|]. split; [reflexivity|].
  cbn [goto pc terminated]. eexists; split; [reflexivity|]. split; reflexivity.
Qed.

(** From line 226 the main thread powers the IMU off and returns 0. *)
Lemma shutdown i ret st :
  pc st = L226 ->
  exists st', run i [Lmain ret; Lmain ret; Lmain ret; Lmain ret] st = Some st' /\
              pc st' = Returned 0 /\
              out st' = out st ++ [Epower_off; Eprintf (String LF EmptyString) []; Efflush].
Proof.
  intros Hpc. unfold run, exec, main_step. rewrite Hpc. cbn.
  eexists; split; [reflexivity|]. cbn. split; [reflexivity|].
  now rewrite <- !app_assoc.
Qed.

(** Where the main thread has returned 0 or the IMU has been powered
    off, [running] is 0. *)
Lemma stopped_when_off i st :
  inv i st -> pc st = Returned 0 \/ In Epower_off (out st) -> running st = 0.
Proof.
  unfold inv. intros Hinv H.
  pose proof (configure_plain i) as Hp.
  pose proof (main_configure_spec i) as Hs.
  destruct (main_configure (ordering i) (argv i) (stdin i)) as [v s o|rc o|status o|o|];
    cbn [shape events_of] in Hinv, Hp; try contradiction.
  - clear Hs. destruct (pc st) eqn:Hpc; unfold flags, idle_prefix, __print_header in *;
      break_hyps; subst; try assumption; try discriminate;
      try match goal with H : out st = _, K : In _ (out st) |- _ => rewrite H in K end;
      try (cbn in *; contradiction); in_cases;
      try match goal with H : Returned _ = Returned _ |- _ => injection H as -> end;
      try discriminate; try assumption.
  - destruct Hs as (-> & _).
    destruct (pc st) eqn:Hpc; try contradiction;
      break_hyps; subst; try discriminate;
      try match goal with H : out st = _, K : In _ (out st) |- _ => rewrite H in K end;
      try (cbn in *; contradiction); in_cases.
  - clear Hs. destruct (pc st) eqn:Hpc; try contradiction;
      break_hyps; subst; try discriminate;
      try match goal with H : out st = _, K : In _ (out st) |- _ => rewrite H in K end;
      try (cbn in *; contradiction); in_cases.
Qed.

(** C3.  In every state a run of [main] can be in:
    - a step taken in the idle loop stays in the loop, unless it is the
      main thread at the loop test with [running] equal to 0, which
      goes to line 226;
    - at the loop test with [running] not 0, the main thread sleeps and
      comes back to the test;
    - a step that takes [running] from a nonzero value to 0 is a
      delivery of SIGINT (the signal handler);
    - from line 226 the main thread calls rc_mpu_power_off, prints a
      newline, flushes and returns 0;
    - if [main] has returned 0 or rc_mpu_power_off has been called,
      [running] is 0. *)
Theorem C3_idle_until_sigint (i : input) (st : state) :
  reachable i st ->
  (forall l st',
     pc st = L223 \/ pc st = L223_usleep -> exec i l st = Some st' ->
     pc st' = L223 \/ pc st' = L223_usleep \/
     (pc st' = L226 /\ running st = 0 /\ pc st = L223 /\ exists ret, l = Lmain ret)) /\
  (forall ret,
     pc st = L223 -> running st <> 0 ->
     exists st1, exec i (Lmain ret) st = Some st1 /\ pc st1 = L223_usleep /\
       exists st2, exec i (Lmain ret) st1 = Some st2 /\ pc st2 = L223 /\
                   out st2 = out st ++ [Eusleep 100000]) /\
  (forall l st',
     exec i l st = Some st' -> running st <> 0 -> running st' = 0 -> l = Lsigint) /\
  (forall ret,
     pc st = L226 ->
     exists st', run i [Lmain ret; Lmain ret; Lmain ret; Lmain ret] st = Some st' /\
                 pc st' = Returned 0 /\
                 out st' = out st ++ [Epower_off; Eprintf (String LF EmptyString) []; Efflush]) /\
  (pc st = Returned 0 \/ In Epower_off (out st) -> running st = 0).
Proof.
  intros Hr. pose proof (reachable_inv i st Hr) as Hinv.
  split; [|split; [|split; [|split]]].
  - intros l st'. exact (loop_step i st l st' Hinv).
  - intros ret. exact (loop_sleeps i ret st).
  - intros l st'. exact (running_cleared i l st st').
  - intros ret. exact (shutdown i ret st).
  - exact (stopped_when_off i st Hinv).
Qed.

(** ** C5: the order of the operations *)

Lemma complaints_printf cs : forallb is_printf (complaints cs) = true.
Proof.
  induction cs as [|c cs IH]; [reflexivity|].
  unfold complaints in *. simpl. rewrite forallb_app, IH.
  destruct (Ascii.eqb c LF); reflexivity.
Qed.

Lemma orientation_prompt_printf stdin r s' o :
  __orientation_prompt stdin = (r, s', o) -> forallb is_printf o = true.
Proof.
  unfold __orientation_prompt.
  destruct (prompt_loop_spec stdin prompt_menu) as (pre & _ & H).
  pose proof (complaints_printf pre) as Hp.
  destruct H as [[_ H]|[(c & x & rest & _ & _ & H)|(rest & _ & H)]];
    rewrite H; intros E; injection E as _ _ <-;
    simpl; rewrite ?forallb_app, Hp; reflexivity.
Qed.

(** The events of lines 150-202 when they go on to line 204: the calls
    of the scanner, one for each option and the last one returning -1,
    and then what the orientation prompt printed, if it ran. *)
Lemma configured_events i v s o :
  main_configure (ordering i) (argv i) (stdin i) = configured v s o ->
  exists o', forallb is_printf o' = true /\
             o = getopt_calls (options i) ++ Egetopt (-1) :: o'.
Proof.
  intros Hcfg. pose proof (main_configure_spec i) as Hs. rewrite Hcfg in Hs.
  destruct Hs as (_ & _ & _ & v0 & _ & Ho).
  destruct (has_option "o" (options i)).
  - destruct Ho as (x & o' & Hp & _ & ->). exists o'.
    split; [eapply orientation_prompt_printf; eauto | now rewrite <- app_assoc].
  - destruct Ho as (_ & _ & ->). now exists [].
Qed.

Lemma idle_shape i st :
  inv i st -> pc st = L223 \/ pc st = L223_usleep ->
  exists v s o tail,
    main_configure (ordering i) (argv i) (stdin i) = configured v s o /\
    forallb idle tail = true /\
    out st = o ++ [Esignal; Einitialize_dmp (conf v) 0] ++ __print_header
               ++ [Eset_dmp_callback] ++ tail.
Proof.
  unfold inv, shape, idle_prefix. intros Hinv Hpc.
  destruct (main_configure _ _ _) as [v s o|rc o|status o|o|];
    destruct Hpc as [Hpc|Hpc]; rewrite Hpc in Hinv; try contradiction;
    destruct Hinv as (_ & tail & Hi & Ho); exists v, s, o, tail;
    (split; [reflexivity|]); (split; [assumption|]);
    rewrite Ho; now rewrite <- !app_assoc.
Qed.

(** A registration of the callback comes after a call of
    rc_mpu_initialize_dmp that returned 0. *)
Lemma callback_after_initialize i st :
  inv i st -> In Eset_dmp_callback (out st) ->
  exists pre c post,
    out st = pre ++ Einitialize_dmp c 0 :: post /\
    ~ In Eset_dmp_callback pre /\ In Eset_dmp_callback post.
Proof.
  unfold inv. intros Hinv Hin.
  pose proof (configure_plain i) as Hp.
  destruct (main_configure (ordering i) (argv i) (stdin i)) as [v s o|rc o|status o|o|];
    cbn [shape events_of] in Hinv, Hp.
  1: { assert (Hpre : ~ In Eset_dmp_callback (o ++ [Esignal])).
    { intros H. in_cases. }
    destruct (pc st) eqn:Hpc; unfold flags, idle_prefix, __print_header in *;
      break_hyps; subst;
      try match goal with H : out st = _ |- _ => rewrite H in Hin |- * end;
      try (cbn in Hin; contradiction);
      try (exfalso; in_cases; fail);
      exists (o ++ [Esignal]), (conf v);
      eexists; (split; [norm_lists; reflexivity|]); (split; [assumption|]);
      simpl; auto 10. }
  all: absent_event st Hin.
Qed.

(** A sleep comes after the registration of the callback. *)
Lemma sleep_after_callback i st us :
  inv i st -> In (Eusleep us) (out st) ->
  exists pre post,
    out st = pre ++ Eset_dmp_callback :: post /\
    forall us', ~ In (Eusleep us') pre.
Proof.
  unfold inv. intros Hinv Hin.
  pose proof (configure_plain i) as Hp.
  destruct (main_configure (ordering i) (argv i) (stdin i)) as [v s o|rc o|status o|o|];
    cbn [shape events_of] in Hinv, Hp.
  1: { assert (Hpre : forall us', ~ In (Eusleep us')
               (o ++ [Esignal; Einitialize_dmp (conf v) 0] ++ __print_header)).
    { intros us' H. unfold __print_header in H. in_cases. }
    destruct (pc st) eqn:Hpc; unfold flags, idle_prefix in *;
      break_hyps; subst;
      try match goal with H : out st = _ |- _ => rewrite H in Hin |- * end;
      try (cbn in Hin; contradiction);
      try (exfalso; unfold __print_header in *; in_cases; fail);
      exists (o ++ [Esignal; Einitialize_dmp (conf v) 0] ++ __print_header);
      eexists; (split; [|assumption]); rewrite <- !app_assoc; reflexivity. }
  all: absent_event st Hin.
Qed.

(** C5.  In every state a run of [main] can be in:
    - in the idle loop, what has been done so far is, in this order:
      the calls of the option scanner, one for each option and the last
      returning -1; what the orientation prompt printed, if it ran;
      signal; rc_mpu_initialize_dmp with the configuration put
      together from the options, returning 0; the header;
      rc_mpu_set_dmp_callback; and then only sleeps and output of the
      callback;
    - if the callback has been registered, a call of
      rc_mpu_initialize_dmp that returned 0 comes before every
      registration;
    - if the main thread has slept, the registration of the callback
      comes before every sleep. *)
Theorem C5_order_of_operations (i : input) (st : state) :
  reachable i st ->
  (pc st = L223 \/ pc st = L223_usleep ->
   exists v s prompt tail,
     main_configure (ordering i) (argv i) (stdin i)
     = configured v s (getopt_calls (options i) ++ Egetopt (-1) :: prompt) /\
     forallb is_printf prompt = true /\
     forallb idle tail = true /\
     out st = (getopt_calls (options i) ++ Egetopt (-1) :: prompt)
                ++ [Esignal; Einitialize_dmp (conf v) 0] ++ __print_header
                ++ [Eset_dmp_callback] ++ tail) /\
  (In Eset_dmp_callback (out st) ->
   exists pre c post,
     out st = pre ++ Einitialize_dmp c 0 :: post /\
     ~ In Eset_dmp_callback pre /\ In Eset_dmp_callback post) /\
  (forall us, In (Eusleep us) (out st) ->
   exists pre post,
     out st = pre ++ Eset_dmp_callback :: post /\
     forall us', ~ In (Eusleep us') pre).
Proof.
  intros Hr. pose proof (reachable_inv i st Hr) as Hinv.
  split; [|split].
  - intros Hpc.
    destruct (idle_shape i st Hinv Hpc) as (v & s & o & tail & Hcfg & Hidle & Hout).
    destruct (configured_events i v s o Hcfg) as (prompt & Hpr & ->).
    now exists v, s, prompt, tail.
  - exact (callback_after_initialize i st Hinv).
  - intros us. exact (sleep_after_callback i st us Hinv).
Qed.

(** ** Returning before the IMU is touched *)

Lemma configure_return_fails i o :
  main_configure (ordering i) (argv i) (stdin i) = configure_return (-1) o ->
  fails_before_imu i o.
Proof.
  intros Hcfg. split.
  - pose proof (configure_plain i) as Hp. now rewrite Hcfg in Hp.
  - intros ret. unfold exec, main_step. cbn. now rewrite Hcfg.
Qed.

Lemma configured_initializes i v s o ret :
  main_configure (ordering i) (argv i) (stdin i) = configured v s o ->
  initializes i (conf v) ret.
Proof.
  intros Hcfg. unfold initializes.
  pose proof (configure_plain i) as Hp. rewrite Hcfg in Hp. cbn in Hp.
  unfold run, exec, main_step. cbn. rewrite Hcfg. cbn.
  destruct (negb (ret =? 0)); (eexists; split; [reflexivity|]); cbn;
    exists o; (split; [assumption|]); now rewrite <- !app_assoc.
Qed.





(** An option the loop does not accept is [-h], the scanner's ['?'], or
    a [-r] with a rate out of range. *)
Lemma rejected_cases opts :
  Forall reported opts -> forallb accepted opts = false ->
  exists o, In o opts /\
            (fst o = chr "h" \/ fst o = chr "?" \/ bad_rate o = true).
Proof.
  induction 1 as [|x t Hx _ IH]; [discriminate|]. simpl.
  destruct (accepted x) eqn:Ha; simpl.
  - intros Hacc. destruct (IH Hacc) as (o & Hin & Ho). exists o. auto.
  - intros _. exists x. split; [now left|].
    unfold bad_rate. rewrite Ha. unfold accepted in Ha.
    destruct Hx as [[Hc _]|[[Hc _]|[[Hc _]|[[Hc _]|[Hc _]]]]]; rewrite Hc in *;
      try discriminate Ha; auto.
Qed.


Lemma atoi_decimal (n : Z) : 4 <= n <= 200 -> atoi (decimal n) = n.
Proof.
  intros Hn.
  assert (Hall : forallb (fun k => atoi (decimal (Z.of_nat k)) =? Z.of_nat k)
                   (seq 4 197) = true) by (vm_compute; reflexivity).
  rewrite forallb_forall in Hall.
  specialize (Hall (Z.to_nat n)).
  rewrite Z2Nat.id in Hall by lia.
  apply Z.eqb_eq, Hall, in_seq. lia.
Qed.

(** The command line [prog -r s]: one option, [-r] with argument [s]. *)
Lemma options_rate_only ord prog s :
  scan ord 3 (getopt_init [prog; "-r"; s]) = [(chr "r", Some s)].
Proof.
  rewrite scan_unfold.
  destruct ord; cbn; reflexivity.
Qed.

Lemma configure_rate_only ord prog s sin :
  rate_ok (atoi s) = true ->
  main_configure ord [prog; "-r"; s] sin
  = configured (mk_vars 1 (set_dmp_sample_rate (atoi s) initial_conf) 0 0) sin
      [Egetopt (chr "r"); Egetopt (-1)].
Proof.
  intros Hok. unfold main_configure. rewrite option_loop_options.
  cbn [List.length Z.of_nat Pos.of_succ_nat Pos.succ].
  rewrite options_rate_only.
  cbn [option_fold app]. unfold option_switch.
  change (chr "r" =? chr "r") with true. cbv iota.
  rewrite rate_ok_test, Hok. reflexivity.
Qed.


(** ** C6: the range of the rate, and runs without a rate *)


(** ** C4: when main returns -1 *)

(** C4, amended.  When [main] has returned, it has returned 0 or -1.
    It has returned -1 either after a call of rc_mpu_initialize_dmp
    that returned a value other than 0, or without any call of
    rc_mpu_initialize_dmp, and then one of the options is [-h], or is
    reported as ['?'] by the scanner (an option letter it does not know
    or an argument that is missing), or is a [-r] with a rate out of
    range, or there is no [-r] among the options. *)
Theorem C4_failure_causes (i : input) (st : state) (rc : Z) :
  reachable i st -> pc st = Returned rc ->
  rc = 0 \/
  (rc = -1 /\
   ((exists c ret, ret <> 0 /\ In (Einitialize_dmp c ret) (out st)) \/
    ((forall c ret, ~ In (Einitialize_dmp c ret) (out st)) /\
     ((exists o, In o (options i) /\
                 (fst o = chr "h" \/ fst o = chr "?" \/ bad_rate o = true)) \/
      has_option "r" (options i) = false)))).
Proof.
  intros Hr Hpc. pose proof (reachable_inv i st Hr) as Hinv. unfold inv in Hinv.
  pose proof (main_configure_spec i) as Hs.
  pose proof (configure_plain i) as Hp.
  destruct (main_configure (ordering i) (argv i) (stdin i)) as [v s o|rc' o|status o|o|];
    cbn [shape events_of] in Hinv, Hp; rewrite Hpc in Hinv; try contradiction.
  - destruct Hinv as [(-> & _ & ret & Hne & Hout)|(-> & _)]; [|now left].
    right. split; [reflexivity|]. left. exists (conf v), ret.
    split; [assumption|]. rewrite Hout. apply in_or_app. right. simpl. auto.
  - destruct Hinv as (-> & _ & Hout). destruct Hs as (-> & _ & Hcause & _).
    right. split; [reflexivity|]. right. split.
    + intros c ret Hin. rewrite Hout in Hin. in_cases.
    + destruct Hcause as [Hna|Hnr]; [left|now right].
      apply rejected_cases; [apply scan_reported | assumption].
Qed.

(** ** C7: a final -m *)



(** * Further properties of the program *)

(** ** Counting the calls *)

Lemma count_app f a b : count f (a ++ b) = (count f a + count f b)%nat.
Proof. unfold count. now rewrite filter_app, length_app. Qed.

Lemma count_none f g l :
  forallb g l = true -> (forall e, g e = true -> f e = false) -> count f l = 0%nat.
Proof.
  intros Hg Hfg. unfold count. induction l as [|e l IH]; [reflexivity|].
  simpl in Hg. apply andb_prop in Hg as [He Hl]. simpl.
  rewrite (Hfg e He). auto.
Qed.

Lemma run_snoc i ls : forall st l,
  run i (ls ++ [l]) st =
  match run i ls st with
  | Some st1 => exec i l st1
  | None => None
  end.
Proof.
  induction ls as [|a ls IH]; intros st l; simpl.
  - now destruct (exec i l st).
  - destruct (exec i a st); [apply IH | reflexivity].
Qed.

Lemma reachable_run i ls st st' :
  reachable i st -> run i ls st = Some st' -> reachable i st'.
Proof.
  intros [ls0 H0] H. exists (ls0 ++ ls).
  revert st H0 st' H. generalize (initial i).
  induction ls0 as [|a ls0 IH]; intros s0 st H0 st' H; simpl in *.
  - injection H0 as ->. exact H.
  - destruct (exec i a s0); [eapply IH; eauto | discriminate].
Qed.

(** The events of the option scan, of the menu and of the idle loop are
    none of the calls that are counted. *)
Ltac count_zero :=
  repeat match goal with
    | H : forallb plain ?o = true |- context [count ?f ?o] =>
        rewrite (count_none f plain o H)
          by (intros e; destruct e; simpl; congruence)
    | H : forallb idle ?o = true |- context [count ?f ?o] =>
        rewrite (count_none f idle o H)
          by (intros e; destruct e; simpl; congruence)
    end.

(** X1.  In a run, signal, rc_mpu_initialize_dmp, rc_mpu_set_dmp_callback
    and rc_mpu_power_off are each called at most once; when [main] has
    returned 0 each of them has been called exactly once, and the DMP
    is off. *)
Theorem X1_each_call_once (i : input) (st : state) :
  reachable i st ->
  ((count is_signal (out st) <= 1)%nat /\
   (count is_initialize (out st) <= 1)%nat /\
   (count is_set_callback (out st) <= 1)%nat /\
   (count is_power_off (out st) <= 1)%nat) /\
  (pc st = Returned 0 ->
   count is_signal (out st) = 1%nat /\
   count is_initialize (out st) = 1%nat /\
   count is_set_callback (out st) = 1%nat /\
   count is_power_off (out st) = 1%nat /\
   dmp_on st = false).
Proof.
  intros Hr. pose proof (reachable_inv i st Hr) as Hinv. unfold inv in Hinv.
  pose proof (configure_plain i) as Hp.
  pose proof (main_configure_spec i) as Hs.
  destruct (main_configure (ordering i) (argv i) (stdin i)) as [v s o|rc o|status o|o|];
    cbn [shape events_of] in Hinv, Hp; try contradiction.
  1: clear Hs. 2: destruct Hs as (-> & _). 3: clear Hs.
  all: destruct (pc st) eqn:Hpc; try contradiction;
    unfold flags, idle_prefix, __print_header in *; break_hyps; subst;
    try match goal with H : out _ = _ |- _ => rewrite H end;
    rewrite ?count_app; count_zero; cbn;
    (split; [lia|]); intros Hret; try discriminate Hret;
    try (injection Hret as Hret; discriminate Hret);
    repeat split; lia || assumption.
Qed.

(** ** A failed initialisation *)

(** X2.  When rc_mpu_initialize_dmp has returned a value other than 0,
    the main thread is printing the failure message or has returned
    -1; the DMP is off, and the callback has not been registered, the
    main thread has not slept and rc_mpu_power_off has not been called.
    From line 209, a return value other than 0 takes the main thread to
    the message and to the return of -1. *)
Theorem X2_initialize_failure (i : input) :
  (forall st c ret,
     reachable i st -> In (Einitialize_dmp c ret) (out st) -> ret <> 0 ->
     (pc st = L210 \/ pc st = L211 \/ pc st = Returned (-1)) /\
     dmp_on st = false /\
     ~ In Eset_dmp_callback (out st) /\
     ~ In Epower_off (out st) /\
     (forall us, ~ In (Eusleep us) (out st))) /\
  (forall st ret,
     pc st = L209 -> ret <> 0 ->
     exists st',
       run i [Lmain ret; Lmain 0; Lmain 0] st = Some st' /\
       pc st' = Returned (-1) /\
       out st' = out st ++ [Einitialize_dmp (conf (locals st)) ret;
                            Eprintf (line "rc_mpu_initialize_failed") []]).
Proof.
  split.
  - intros st c ret Hr Hin Hne.
    pose proof (reachable_inv i st Hr) as Hinv. unfold inv in Hinv.
    pose proof (configure_plain i) as Hp.
    destruct (main_configure (ordering i) (argv i) (stdin i)) as [v s o|rc o|status o|o|];
      cbn [shape events_of] in Hinv, Hp.
    2-5: absent_event st Hin.
    destruct (pc st) eqn:Hpc; unfold flags, idle_prefix, __print_header in *;
      break_hyps; subst;
      try match goal with H : out _ = _ |- _ => rewrite H in * end;
      try (cbn in Hin; contradiction);
      try (exfalso; in_cases; congruence).
    all: (split; [auto|]); (split; [assumption|]);
      clear Hin; repeat split; unfold not; intros; in_cases.
  - intros st ret Hpc Hne. unfold run, exec, main_step. rewrite Hpc. cbn.
    destruct (Z.eqb_spec ret 0) as [|_]; [contradiction|]. cbn.
    eexists. split; [reflexivity|]. cbn. split; [reflexivity|].
    now rewrite <- app_assoc.
Qed.

(** ** Stopping after SIGINT *)

(** With [running] equal to 0, from the loop on: a step of the main
    thread is one statement less to run, any other step changes
    neither that nor [running]. *)
Lemma wind_down_step i l st st' :
  inv i st -> winding_down (pc st) = true -> running st = 0 ->
  exec i l st = Some st' ->
  winding_down (pc st') = true /\ running st' = 0 /\
  (statements_left (pc st') + (if is_main l then 1 else 0)
   = statements_left (pc st))%nat.
Proof.
  unfold inv, exec, main_step. intros Hinv Hw Hrun He.
  destruct (main_configure (ordering i) (argv i) (stdin i)) as [v s o|rc o|status o|o|];
    cbn [shape] in Hinv;
    destruct (pc st) eqn:Hpc; try discriminate Hw; try contradiction;
    cbn [terminated] in He; try discriminate He;
    unfold flags in Hinv; destruct Hinv as ((Hh & Hd & Hc) & _);
    rewrite ?Hh, ?Hd, ?Hc, ?Hrun in He; cbn [Z.eqb negb] in He;
    destruct l as [ret| |d]; try discriminate He;
    injection He as <-; cbn; rewrite ?Hpc; cbn; auto.
Qed.

Lemma wind_down_run i ls : forall st st',
  inv i st -> winding_down (pc st) = true -> running st = 0 ->
  run i ls st = Some st' ->
  inv i st' /\ winding_down (pc st') = true /\ running st' = 0 /\
  (main_steps ls + statements_left (pc st') = statements_left (pc st))%nat.
Proof.
  induction ls as [|l ls IH]; intros st st' Hinv Hw Hrun H; simpl in H.
  - injection H as <-. auto.
  - destruct (exec i l st) as [st1|] eqn:He; [|discriminate].
    destruct (wind_down_step i l st st1 Hinv Hw Hrun He) as (Hw1 & Hrun1 & Hn).
    destruct (IH st1 st' (inv_step i l st st1 Hinv He) Hw1 Hrun1 H)
      as (Hinv' & Hw' & Hrun' & Hn').
    repeat split; try assumption.
    unfold main_steps in *. simpl. destruct (is_main l); simpl in *; lia.
Qed.

(** X3.  When SIGINT is delivered while the main thread is in the idle
    loop, whatever the interrupts that follow, the main thread runs at
    most six more statements: the count of those it has run and of
    those left is constant, at most 6; when none is left it has
    returned 0 with the IMU powered off; until then its next statement
    can always run. *)
Theorem X3_stops_after_sigint (i : input) (st : state) :
  reachable i st -> pc st = L223 \/ pc st = L223_usleep ->
  forall ls st', run i (Lsigint :: ls) st = Some st' ->
  running st' = 0 /\
  (main_steps ls + statements_left (pc st') = statements_left (pc st))%nat /\
  (main_steps ls <= 6)%nat /\
  (statements_left (pc st') = 0%nat ->
   pc st' = Returned 0 /\ In Epower_off (out st') /\ dmp_on st' = false) /\
  (statements_left (pc st') <> 0%nat ->
   exists st'', exec i (Lmain 0) st' = Some st'').
Proof.
  intros Hr Hpc ls st' H.
  pose proof (reachable_inv i st Hr) as Hinv.
  destruct (loop_flags i st Hinv Hpc) as (Hh & _).
  assert (Hw : winding_down (pc st) = true) by (destruct Hpc as [-> | ->]; reflexivity).
  assert (Hterm : terminated (pc st) = false) by (destruct Hpc as [-> | ->]; reflexivity).
  simpl in H. unfold exec at 1 in H. rewrite Hterm, Hh in H.
  assert (Hinv1 : inv i (__signal_handler st)).
  { apply (inv_step i Lsigint st); [assumption|]. unfold exec. now rewrite Hterm, Hh. }
  destruct (wind_down_run i ls _ st' Hinv1 Hw eq_refl H) as (Hinv' & Hw' & Hrun' & Hn).
  cbn [__signal_handler set_running pc] in Hn.
  split; [assumption|]. split; [assumption|]. split.
  { destruct Hpc as [Hpc|Hpc]; rewrite Hpc in Hn; simpl in Hn; lia. }
  split.
  - intros Hz.
    assert (Hret : pc st' = Returned 0).
    { destruct (pc st'); try discriminate Hw'; try discriminate Hz.
      simpl in Hw'. apply Z.eqb_eq in Hw'. now subst. }
    split; [assumption|].
    unfold inv in Hinv'. pose proof (main_configure_spec i) as Hs.
    destruct (main_configure (ordering i) (argv i) (stdin i)) as [v s o|rc o|status o|o|];
      cbn [shape] in Hinv'; rewrite Hret in Hinv'; try contradiction.
    + destruct Hinv' as [(Hrc & _)|(_ & _ & Hd & tail & _ & Hout)]; [discriminate|].
      split; [|assumption]. rewrite Hout.
      apply in_or_app. right. apply in_or_app. right. simpl. auto.
    + destruct Hs as (-> & _). destruct Hinv' as (Hrc & _). discriminate.
  - intros Hnz. unfold exec, main_step.
    destruct (pc st'); try discriminate Hw'; cbn [terminated];
      try (eexists; reflexivity).
    + destruct (negb (running st' =? 0)); eexists; reflexivity.
    + simpl in Hnz. contradiction.
Qed.

(** ** Interrupts while the main thread idles *)

Lemma last_cons {A} (d : A) (l : list A) (x : A) : last (d :: l) x = last l d.
Proof.
  revert d x. induction l as [|a l IH]; intros d x; [reflexivity|].
  change (last (d :: a :: l) x) with (last (a :: l) x).
  now rewrite (IH a x), (IH a d).
Qed.

Lemma stdout_of_samples (ds : list rc_mpu_data_t) :
  stdout_of (flat_map __print_data ds) = flat_map data_line ds.
Proof.
  induction ds as [|d ds IH]; [reflexivity|].
  cbn [flat_map]. rewrite stdout_of_app, IH. reflexivity.
Qed.

(** The callback never ends the line. *)
Lemma data_line_no_newline (ds : list rc_mpu_data_t) :
  ~ In (Pchar LF) (flat_map data_line ds).
Proof.
  intros H. apply in_flat_map in H as (d & _ & H).
  vm_compute in H.
  repeat destruct H as [H|H]; try discriminate H. exact H.
Qed.

Lemma interrupts_run i ls : forall st,
  terminated (pc st) = false ->
  handler st = true -> dmp_on st = true -> callback st = true ->
  forallb is_interrupt ls = true ->
  exists st',
    run i ls st = Some st' /\ pc st' = pc st /\
    out st' = out st ++ flat_map __print_data (samples ls) /\
    data st' = last (samples ls) (data st).
Proof.
  induction ls as [|l ls IH]; intros st Ht Hh Hd Hc Hall.
  - exists st. simpl. now rewrite app_nil_r.
  - simpl in Hall. apply andb_prop in Hall as [Hl Hall].
    destruct l as [ret| |d]; [discriminate Hl| |].
    + destruct (IH (__signal_handler st) Ht Hh Hd Hc Hall) as (st' & Hrun & Hpc & Hout & Hdata).
      exists st'. simpl. unfold exec. rewrite Ht, Hh. auto.
    + destruct (IH (emit (__print_data d) (set_data d st)) Ht Hh Hd Hc Hall)
        as (st' & Hrun & Hpc & Hout & Hdata).
      exists st'. simpl. unfold exec. rewrite Ht, Hd, Hc.
      split; [exact Hrun|]. split; [exact Hpc|]. split.
      * rewrite Hout. cbn [emit set_data out data]. now rewrite <- app_assoc.
      * rewrite Hdata. cbn [emit set_data data]. symmetry. apply last_cons.
Qed.

(** X4.  While the main thread stays where it is in the idle loop,
    every schedule of SIGINTs and DMP interrupts can run; each sample
    is printed by the callback, in the order of arrival, none is
    dropped or printed twice; [data] holds the last one; and what is
    added to the terminal contains no newline. *)
Theorem X4_interrupts_while_idle (i : input) (st : state) (ls : list label) :
  reachable i st -> pc st = L223 \/ pc st = L223_usleep ->
  forallb is_interrupt ls = true ->
  exists st',
    run i ls st = Some st' /\ pc st' = pc st /\
    out st' = out st ++ flat_map __print_data (samples ls) /\
    data st' = last (samples ls) (data st) /\
    stdout_of (out st') = stdout_of (out st) ++ flat_map data_line (samples ls) /\
    ~ In (Pchar LF) (flat_map data_line (samples ls)).
Proof.
  intros Hr Hpc Hall.
  destruct (loop_flags i st (reachable_inv i st Hr) Hpc) as (Hh & Hd & Hc).
  assert (Ht : terminated (pc st) = false) by (destruct Hpc as [-> | ->]; reflexivity).
  destruct (interrupts_run i ls st Ht Hh Hd Hc Hall) as (st' & Hrun & Hpc' & Hout & Hdata).
  exists st'. repeat split; try assumption.
  - rewrite Hout, stdout_of_app, stdout_of_samples. reflexivity.
  - apply data_line_no_newline.
Qed.

(** ** What is on the terminal in the idle loop *)

Lemma idle_events_snoc xs x :
  idle_events (xs ++ [x]) = idle_events xs ++ idle_events [x].
Proof. unfold idle_events. now rewrite flat_map_app. Qed.

(** In the idle loop, what has been done since the callback was
    registered is sleeps of the main thread and calls of the callback
    on samples. *)
Lemma loop_events i st :
  reachable i st -> pc st = L223 \/ pc st = L223_usleep ->
  exists v s o xs,
    main_configure (ordering i) (argv i) (stdin i) = configured v s o /\
    out st = idle_prefix v o ++ idle_events xs.
Proof.
  intros [ls Hrun]. revert st Hrun.
  induction ls as [|l ls IH] using rev_ind; intros st Hrun Hpc.
  - simpl in Hrun. injection Hrun as <-. destruct Hpc; discriminate.
  - rewrite run_snoc in Hrun.
    destruct (run i ls (initial i)) as [st1|] eqn:H1; [|discriminate].
    assert (Hinv1 : inv i st1) by (apply reachable_inv; now exists ls).
    specialize (IH st1 eq_refl).
    unfold inv in Hinv1. unfold exec, main_step in Hrun.
    destruct st1 as [p r dt lv h dm cb sl o1].
    cbn [pc handler dmp_on callback out running locals data stdin_left] in *.
    destruct (main_configure (ordering i) (argv i) (stdin i)) as [v s o|rc o|status o|o|] eqn:Hcfg;
      cbn [shape] in Hinv1;
      destruct p; cbn [terminated] in Hrun; try discriminate Hrun; try contradiction;
      unfold flags in Hinv1;
      cbn [pc handler dmp_on callback out running locals data stdin_left] in Hinv1;
      try (injection Hinv1 as -> -> -> -> -> -> -> ->);
      destruct l as [ret| |d];
      cbn [goto emit set_handler set_running set_dmp_on set_callback set_data
           __signal_handler pc handler dmp_on callback out running locals data
           stdin_left initial] in Hrun;
      try (destruct Hinv1 as ((-> & -> & ->) & Hinv1));
      try (destruct (negb (ret =? 0)));
      try (destruct (negb (r =? 0)));
      try discriminate Hrun;
      injection Hrun as <-;
      cbn [goto emit set_handler set_running set_dmp_on set_callback set_data
           __signal_handler pc handler dmp_on callback out running locals data
           stdin_left initial] in Hpc |- *;
      try (destruct Hpc as [Hpc|Hpc]; discriminate Hpc).
    all: try (destruct (IH (or_introl eq_refl)) as (v' & s' & o' & xs & E & ->);
              injection E as <- <- <-).
    all: try (destruct (IH (or_intror eq_refl)) as (v' & s' & o' & xs & E & ->);
              injection E as <- <- <-).
    all: exists v, s, o.
    all: first
      [ exists xs; split; [reflexivity|]; reflexivity
      | exists (xs ++ [None]); split; [reflexivity|];
        rewrite idle_events_snoc, app_assoc; reflexivity
      | exists (xs ++ [Some d]); split; [reflexivity|];
        rewrite idle_events_snoc, app_assoc; cbn [idle_events flat_map];
        rewrite app_nil_r; reflexivity
      | exists []; split; [reflexivity|]; destruct Hinv1 as (-> & _) || subst;
        unfold idle_prefix; cbn [idle_events flat_map];
        rewrite <- ?app_assoc; cbn [app]; rewrite ?app_nil_r; reflexivity ].
Qed.

Lemma stdout_of_idle_events xs :
  stdout_of (idle_events xs) = flat_map data_line (printed_samples xs).
Proof.
  induction xs as [|[d|] xs IH]; [reflexivity| |].
  - change (idle_events (Some d :: xs)) with (__print_data d ++ idle_events xs).
    rewrite stdout_of_app, IH. reflexivity.
  - exact IH.
Qed.

(** X5.  In the idle loop, the terminal shows what the option scan and
    the menu printed, then the header, two spaces and
    "DMP TaitBryan (deg) |" and a newline, and then one data line for
    each sample the callback was called on, in order, with no newline
    among them: the data is rewritten on the line under the header.
    Since the registration of the callback nothing has been done but
    sleeps of 100000 microseconds and calls of the callback. *)
Theorem X5_terminal_in_the_loop (i : input) (st : state) :
  reachable i st -> pc st = L223 \/ pc st = L223_usleep ->
  exists v s o xs,
    main_configure (ordering i) (argv i) (stdin i) = configured v s o /\
    out st = o ++ [Esignal; Einitialize_dmp (conf v) 0] ++ __print_header
               ++ [Eset_dmp_callback] ++ idle_events xs /\
    stdout_of (out st)
    = stdout_of o
        ++ map Pchar (list_ascii_of_string (line "  DMP TaitBryan (deg) |"))
        ++ flat_map data_line (printed_samples xs) /\
    ~ In (Pchar LF) (flat_map data_line (printed_samples xs)).
Proof.
  intros Hr Hpc.
  destruct (loop_events i st Hr Hpc) as (v & s & o & xs & Hcfg & Hout).
  exists v, s, o, xs. split; [assumption|]. unfold idle_prefix in Hout.
  split; [rewrite Hout; now rewrite <- !app_assoc|]. split.
  - rewrite Hout, !stdout_of_app, stdout_of_idle_events.
    rewrite <- !app_assoc. reflexivity.
  - apply data_line_no_newline.
Qed.

(** ** SIGINT and the handler *)





(** ** When the menu is shown *)

Lemma option_fold_no_menu opts : forall v o,
  existsb menu_line o = false ->
  existsb menu_line (loop_events_of (option_fold opts v o)) = false.
Proof.
  induction opts as [|[c a] t IH]; intros v o Ho; cbn [option_fold].
  - cbn [loop_events_of]. now rewrite existsb_app, Ho.
  - assert (Ho1 : existsb menu_line (o ++ [Egetopt c]) = false)
      by now rewrite existsb_app, Ho.
    unfold option_switch.
    destruct (c =? chr "r").
    { destruct a as [s|]; [|exact Ho1].
      destruct ((atoi s >? 200) || (atoi s <? 4)).
      - cbn [loop_events_of]. now rewrite existsb_app, Ho1.
      - now apply IH. }
    destruct (c =? chr "m"); [now apply IH|].
    destruct (c =? chr "o"); [now apply IH|].
    destruct (c =? chr "h"); cbn [loop_events_of];
      rewrite !existsb_app, Ho; reflexivity.
Qed.

Lemma getopt_calls_no_menu opts :
  existsb menu_line (getopt_calls opts ++ [Egetopt (-1)]) = false.
Proof.
  rewrite existsb_app. induction opts as [|x t IH]; [reflexivity|]. exact IH.
Qed.

Lemma configure_return_no_menu ord av sin rc o :
  main_configure ord av sin = configure_return rc o ->
  existsb menu_line o = false.
Proof.
  unfold main_configure. rewrite option_loop_options.
  pose proof (option_fold_no_menu
                (scan ord (Z.of_nat (List.length av)) (getopt_init av))
                (mk_vars 0 initial_conf 0 0) [] eq_refl) as Hn.
  destruct (option_fold _ _ _) as [v out|rc' out|out|]; cbn [loop_events_of] in Hn;
    try discriminate.
  - destruct (show_something v =? 0).
    + intros E. injection E as _ <-. rewrite !existsb_app, Hn. reflexivity.
    + destruct (negb (orientation_menu v =? 0)); [|discriminate].
      destruct (__orientation_prompt sin) as [[[x|status] s'] o']; discriminate.
  - intros E. injection E as _ <-. exact Hn.
Qed.

Lemma prompt_prints_menu sin r s o :
  __orientation_prompt sin = (r, s, o) -> existsb menu_line o = true.
Proof.
  unfold __orientation_prompt.
  destruct (prompt_loop_spec sin prompt_menu) as (pre & _ & H).
  destruct H as [[_ H]|[(c & x & rest & _ & _ & H)|(rest & _ & H)]];
    rewrite H; intros E; injection E as _ _ <-; reflexivity.
Qed.

Lemma stdin_left_step i l st st' :
  exec i l st = Some st' ->
  stdin_left st' = stdin_left st \/
  (pc st = L150 /\
   exists v o, main_configure (ordering i) (argv i) (stdin i)
               = configured v (stdin_left st') o).
Proof.
  unfold exec, main_step. intros He.
  destruct (terminated (pc st)); [discriminate|].
  destruct l as [ret| |d].
  - destruct (pc st) eqn:Hp; try discriminate He;
      try (injection He as <-; left; reflexivity).
    + destruct (main_configure (ordering i) (argv i) (stdin i)) as [v s o|rc o|status o|o|];
        try discriminate He; injection He as <-; [right | left | left | left];
        try reflexivity.
      split; [reflexivity|]. now exists v, o.
    + destruct (negb (ret =? 0)); injection He as <-; left; reflexivity.
    + destruct (negb (running st =? 0)); injection He as <-; left; reflexivity.
  - destruct (handler st); injection He as <-; left; reflexivity.
  - destruct (dmp_on st); [|discriminate].
    destruct (callback st); injection He as <-; left; reflexivity.
Qed.

(** What is left of the standard input is all of it, or what the prompt
    left. *)
Lemma stdin_left_reachable i st :
  reachable i st ->
  stdin_left st = stdin i \/
  exists v o, main_configure (ordering i) (argv i) (stdin i)
              = configured v (stdin_left st) o.
Proof.
  intros [ls H]. revert st H.
  induction ls as [|l ls IH] using rev_ind; intros st H.
  - injection H as <-. now left.
  - rewrite run_snoc in H.
    destruct (run i ls (initial i)) as [st1|]; [|discriminate].
    destruct (stdin_left_step i l st1 st H) as [E|[_ E]]; [|now right].
    rewrite E. now apply IH.
Qed.

(** Without the menu, lines 150-202 do not depend on the standard
    input. *)
Lemma configure_ignores_stdin ord av sin sin' :
  existsb menu_line (events_of (main_configure ord av sin)) = false ->
  match main_configure ord av sin with
  | configured v s o => s = sin /\ main_configure ord av sin' = configured v sin' o
  | _ => main_configure ord av sin' = main_configure ord av sin
  end.
Proof.
  unfold main_configure.
  destruct (option_loop _ _ _ _ _ _) as [v out|rc out|out|]; try reflexivity.
  destruct (show_something v =? 0); [reflexivity|].
  destruct (negb (orientation_menu v =? 0)); [|intros _; split; reflexivity].
  destruct (__orientation_prompt sin) as [[[x|status] s'] o'] eqn:Hp;
    cbn [events_of]; rewrite existsb_app, (prompt_prints_menu _ _ _ _ Hp), orb_true_r;
    discriminate.
Qed.

(** X7.  Lines 150-202 print the orientation menu exactly when every
    option is accepted and both [-r] and [-o] are among them.  In every
    other case the standard input is not read at all, whether [main]
    goes on to the IMU or returns -1: in every state of the run all of
    the input is still unread, and lines 150-202 do the same on any
    other input. *)
Theorem X7_menu_only_when_needed (i : input) :
  (existsb menu_line (events_of (main_configure (ordering i) (argv i) (stdin i))) = true
   <-> forallb accepted (options i) = true /\
       has_option "r" (options i) = true /\
       has_option "o" (options i) = true) /\
  (existsb menu_line (events_of (main_configure (ordering i) (argv i) (stdin i))) = false ->
   (forall v s o,
      main_configure (ordering i) (argv i) (stdin i) = configured v s o ->
      s = stdin i) /\
   (forall st, reachable i st -> stdin_left st = stdin i) /\
   (forall sin',
      match main_configure (ordering i) (argv i) (stdin i) with
      | configured v _ o =>
          main_configure (ordering i) (argv i) sin' = configured v sin' o
      | _ =>
          main_configure (ordering i) (argv i) sin'
          = main_configure (ordering i) (argv i) (stdin i)
      end)).
Proof.
  assert (Hread :
    existsb menu_line (events_of (main_configure (ordering i) (argv i) (stdin i))) = false ->
    forall v s o,
      main_configure (ordering i) (argv i) (stdin i) = configured v s o -> s = stdin i).
  { intros Hm v s o Hcfg.
    pose proof (configure_ignores_stdin (ordering i) (argv i) (stdin i) [] Hm) as H.
    rewrite Hcfg in H. exact (proj1 H). }
  split.
  2: { intros Hm. split; [exact (Hread Hm)|]. split.
       - intros st Hr.
         destruct (stdin_left_reachable i st Hr) as [E|(v & o & E)]; [exact E|].
         exact (Hread Hm _ _ _ E).
       - intros sin'.
         pose proof (configure_ignores_stdin (ordering i) (argv i) (stdin i) sin' Hm) as H.
         destruct (main_configure (ordering i) (argv i) (stdin i)); try exact H.
         exact (proj2 H). }
  clear Hread. pose proof (main_configure_spec i) as Hs.
  destruct (main_configure (ordering i) (argv i) (stdin i)) as [v s o|rc o|status o|o|] eqn:Hcfg;
    cbn [events_of]; try contradiction.
  - destruct Hs as (Ha & Hr & _ & v0 & _ & Ho).
    destruct (has_option "o" (options i)).
    + destruct Ho as (x & o' & Hp & _ & ->).
      assert (Hm : existsb menu_line ((getopt_calls (options i) ++ [Egetopt (-1)]) ++ o') = true).
      { rewrite existsb_app, (prompt_prints_menu _ _ _ _ Hp). apply orb_true_r. }
      tauto.
    + destruct Ho as (-> & -> & ->). rewrite getopt_calls_no_menu.
      split; [discriminate | intros (_ & _ & E); discriminate E].
  - rewrite (configure_return_no_menu _ _ _ _ _ Hcfg).
    destruct Hs as (_ & _ & Hcause & _).
    split; [discriminate|].
    intros (Ha & Hr & _). destruct Hcause; congruence.
  - destruct Hs as (_ & _ & Ha & Hr & Ho & s' & o' & Hp & ->).
    assert (Hm : existsb menu_line ((getopt_calls (options i) ++ [Egetopt (-1)]) ++ o') = true).
    { rewrite existsb_app, (prompt_prints_menu _ _ _ _ Hp). apply orb_true_r. }
    tauto.
Qed.

(** ** Leaving the menu *)

Lemma passed_over_not (c : ascii) :
  passed_over c = true ->
  Ascii.eqb c "1" = false /\ Ascii.eqb c "2" = false /\ Ascii.eqb c "3" = false /\
  Ascii.eqb c "4" = false /\ Ascii.eqb c "5" = false /\ Ascii.eqb c "6" = false /\
  Ascii.eqb c "7" = false /\ Ascii.eqb c "8" = false /\ Ascii.eqb c "q" = false.
Proof.
  intros H.
  repeat split;
    match goal with
    | |- Ascii.eqb c ?k = false =>
        destruct (Ascii.eqb_spec c k) as [E|]; [|reflexivity];
        subst c; discriminate H
    end.
Qed.

(** The prompt reads over the characters it passes over. *)
Lemma prompt_loop_skip pre : forall o rest,
  forallb passed_over pre = true ->
  prompt_loop (pre ++ rest) o = prompt_loop rest (o ++ complaints pre).
Proof.
  induction pre as [|c pre IH]; intros o rest Hall.
  - simpl. now rewrite app_nil_r.
  - simpl in Hall. apply andb_prop in Hall as [Hc Hall].
    destruct (passed_over_not c Hc) as (H1 & H2 & H3 & H4 & H5 & H6 & H7 & H8 & Hq).
    change ((c :: pre) ++ rest) with (c :: (pre ++ rest)).
    cbn [prompt_loop]. rewrite H1, H2, H3, H4, H5, H6, H7, H8, Hq.
    unfold complaints. cbn [flat_map]. fold (complaints pre).
    destruct (Ascii.eqb c LF); rewrite IH by assumption.
    + reflexivity.
    + now rewrite <- app_assoc.
Qed.

Lemma prompt_loop_q rest o :
  prompt_loop ("q"%char :: rest) o
  = (prompt_exit 0, rest, o ++ [Eprintf (line "Quitting") []]).
Proof. reflexivity. Qed.

(** X8.  When every option is accepted, [-r] and [-o] are among them,
    and the first character typed at the menu that is not passed over
    is ['q'], the first step of [main] ends the process with exit
    status 0, "Quitting" being the last thing printed; in no state of
    such a run has rc_mpu_initialize_dmp been called, and the DMP is
    off. *)
Theorem X8_quit_at_the_menu (i : input) (pre rest : list ascii) :
  forallb accepted (options i) = true ->
  has_option "r" (options i) = true ->
  has_option "o" (options i) = true ->
  stdin i = pre ++ "q"%char :: rest ->
  forallb passed_over pre = true ->
  (forall ret,
     exec i (Lmain ret) (initial i)
     = Some (goto (Exited 0)
               (emit (getopt_calls (options i) ++ Egetopt (-1) :: prompt_menu
                        ++ complaints pre ++ [Eprintf (line "Quitting") []])
                  (initial i)))) /\
  (forall st, reachable i st ->
     dmp_on st = false /\ forall c r, ~ In (Einitialize_dmp c r) (out st)).
Proof.
  intros Ha Hr Ho Hin Hpre.
  assert (Hp : __orientation_prompt (stdin i)
               = (prompt_exit 0, rest,
                  prompt_menu ++ complaints pre ++ [Eprintf (line "Quitting") []])).
  { unfold __orientation_prompt. rewrite Hin, prompt_loop_skip by assumption.
    rewrite prompt_loop_q. now rewrite <- app_assoc. }
  pose proof (main_configure_spec i) as Hs.
  destruct (main_configure (ordering i) (argv i) (stdin i)) as [v s o|rc o|status o|o|] eqn:Hcfg;
    try contradiction.
  - destruct Hs as (_ & _ & _ & v0 & _ & Hx). rewrite Ho in Hx.
    destruct Hx as (x & o' & Hp' & _). rewrite Hp in Hp'. discriminate.
  - destruct Hs as (_ & _ & [E|E] & _); congruence.
  - destruct Hs as (-> & Hpl & _ & _ & _ & s' & o' & Hp' & Eo).
    rewrite Hp in Hp'. injection Hp' as _ <-.
    split.
    + intros ret. unfold exec, main_step. cbn. rewrite Hcfg, Eo.
      now rewrite <- app_assoc.
    + clear Eo. intros st Hst. pose proof (reachable_inv i st Hst) as Hinv.
      unfold inv in Hinv. rewrite Hcfg in Hinv. cbn [shape] in Hinv.
      destruct (pc st) eqn:Hpc; try contradiction; break_hyps; subst;
        (split; [reflexivity || assumption|]); intros c r Hx;
        try match goal with H : out _ = _ |- _ => rewrite H in Hx end;
        cbn in Hx; in_cases.
Qed.

(** X9.  When [-o] is given and the standard input ends before a digit
    ['1'] to ['8'] or a ['q'] is typed, rc_mpu_initialize_dmp is called
    with [orient] equal to ORIENTATION_Z_UP, whatever the vendor's
    default orientation is. *)
Theorem X9_no_selection_is_z_up (i : input) (st : state) (c : config) (ret : Z) :
  reachable i st -> In (Einitialize_dmp c ret) (out st) ->
  has_option "o" (options i) = true ->
  forallb passed_over (stdin i) = true ->
  orient c = ORIENTATION_Z_UP.
Proof.
  intros Hr Hin Ho Hall.
  destruct (initialize_dmp_conf i st c ret Hr Hin) as (v & s & o & Hcfg & ->).
  pose proof (main_configure_spec i) as Hs. rewrite Hcfg in Hs.
  destruct Hs as (_ & _ & _ & v0 & _ & Hx). rewrite Ho in Hx.
  destruct Hx as (x & o' & Hp & -> & _).
  unfold __orientation_prompt in Hp.
  rewrite <- (app_nil_r (stdin i)) in Hp.
  rewrite prompt_loop_skip in Hp by assumption.
  cbn [prompt_loop] in Hp. injection Hp as <- _ _. reflexivity.
Qed.

(** ** The argument of -r *)

Lemma getopt_argc ord a1 a2 os d :
  1 <= a1 -> 1 <= a2 -> getopt ord a1 os d = getopt ord a2 os d.
Proof.
  intros H1 H2. unfold getopt.
  destruct (Z.ltb_spec a1 1); [lia|]. destruct (Z.ltb_spec a2 1); [lia|]. reflexivity.
Qed.

Lemma scan_argc ord a1 a2 d :
  1 <= a1 -> 1 <= a2 -> scan ord a1 d = scan ord a2 d.
Proof.
  intros H1 H2. unfold scan. generalize (S (unscanned d)) as fuel. intros fuel.
  revert d. induction fuel as [|fuel IH]; intros d; [reflexivity|].
  simpl. rewrite (getopt_argc ord a1 a2 optstring d H1 H2).
  destruct (getopt ord a2 optstring d) as [c d']. now rewrite IH.
Qed.

(** What [main_configure] does depends on the command line through its
    options only. *)
Lemma main_configure_options ord av1 av2 sin :
  scan ord (Z.of_nat (List.length av1)) (getopt_init av1)
  = scan ord (Z.of_nat (List.length av2)) (getopt_init av2) ->
  main_configure ord av1 sin = main_configure ord av2 sin.
Proof.
  intros H. unfold main_configure. now rewrite !option_loop_options, H.
Qed.

(** X10.  An argument written in the same element as its option is the
    same as one written in the next element: [-rX] does what [-r X]
    does and [-mX] what [-m X] does, for every nonempty [X] and
    whatever follows on the command line. *)
Theorem X10_attached_argument (ord : ordering_t) (prog : string) (a : ascii)
    (s : string) (rest : list string) (sin : list ascii) :
  main_configure ord (prog :: String "-" (String "r" (String a s)) :: rest) sin
  = main_configure ord (prog :: "-r" :: String a s :: rest) sin /\
  main_configure ord (prog :: String "-" (String "m" (String a s)) :: rest) sin
  = main_configure ord (prog :: "-m" :: String a s :: rest) sin.
Proof.
  split; apply main_configure_options.
  - rewrite (scan_argc ord _ 1) by (simpl List.length; lia).
    rewrite (scan_argc ord (Z.of_nat _) 1) by (simpl List.length; lia).
    rewrite !(scan_unfold ord 1 (getopt_init _)).
    destruct ord; reflexivity.
  - rewrite (scan_argc ord _ 1) by (simpl List.length; lia).
    rewrite (scan_argc ord (Z.of_nat _) 1) by (simpl List.length; lia).
    rewrite !(scan_unfold ord 1 (getopt_init _)).
    destruct ord; reflexivity.
Qed.

Lemma configure_rate_rejected ord prog s sin :
  rate_ok (atoi s) = false ->
  main_configure ord [prog; "-r"; s] sin
  = configure_return (-1)
      [Egetopt (chr "r"); Eprintf "sample_rate must be between 4 & 200" []].
Proof.
  intros Hok. unfold main_configure. rewrite option_loop_options.
  cbn [List.length Z.of_nat Pos.of_succ_nat Pos.succ].
  rewrite options_rate_only.
  cbn [option_fold app]. unfold option_switch.
  change (chr "r" =? chr "r") with true. cbv iota.
  rewrite rate_ok_test, Hok. reflexivity.
Qed.

Lemma not_a_number (s : string) :
  match s with
  | String c _ => negb (isdigit c || isspace c || Ascii.eqb c "-" || Ascii.eqb c "+")
  | EmptyString => true
  end = true ->
  atoi s = 0.
Proof.
  destruct s as [|c s]; [reflexivity|]. intros H.
  apply negb_true_iff in H.
  apply orb_false_elim in H as [H Hplus]. apply orb_false_elim in H as [H Hminus].
  apply orb_false_elim in H as [Hd Hs].
  unfold atoi, strtol. cbn [skip_space]. rewrite Hs.
  destruct c as [[] [] [] [] [] [] [] []];
    try discriminate Hminus; try discriminate Hplus;
    cbn [digits]; rewrite Hd; reflexivity.
Qed.

(** X11.  For the command line [prog -r s], whatever the string [s]:
    if [atoi s] is from 4 to 200 the main thread gets to
    rc_mpu_initialize_dmp with that rate; otherwise [main] returns -1
    before touching the IMU, having printed the message about the range
    and not the usage message.  The second case includes every [s]
    that is empty or starts with a character other than a digit, a
    blank or a sign. *)
Theorem X11_rate_argument (i : input) (prog s : string) :
  argv i = [prog; "-r"; s] ->
  (4 <= atoi s <= 200 ->
   forall ret, initializes i (set_dmp_sample_rate (atoi s) initial_conf) ret) /\
  (atoi s < 4 \/ 200 < atoi s ->
   fails_before_imu i
     [Egetopt (chr "r"); Eprintf "sample_rate must be between 4 & 200" []] /\
   ~ prints_usage
       [Egetopt (chr "r"); Eprintf "sample_rate must be between 4 & 200" []]) /\
  (match s with
   | String c _ => negb (isdigit c || isspace c || Ascii.eqb c "-" || Ascii.eqb c "+")
   | EmptyString => true
   end = true ->
   atoi s < 4).
Proof.
  intros Hargv. split; [|split].
  - intros Hs ret.
    assert (Hok : rate_ok (atoi s) = true).
    { unfold rate_ok. apply andb_true_intro. split; apply Z.leb_le; lia. }
    pose proof (configure_rate_only (ordering i) prog s (stdin i) Hok) as Hcfg.
    rewrite <- Hargv in Hcfg.
    exact (configured_initializes i _ _ _ ret Hcfg).
  - intros Hs.
    assert (Hok : rate_ok (atoi s) = false).
    { unfold rate_ok. apply andb_false_iff.
      destruct Hs; [left | right]; apply Z.leb_gt; lia. }
    pose proof (configure_rate_rejected (ordering i) prog s (stdin i) Hok) as Hcfg.
    rewrite <- Hargv in Hcfg. split.
    + now apply configure_return_fails.
    + intros (pre & post & Hu). apply (f_equal (@List.length _)) in Hu.
      rewrite !length_app in Hu. simpl in Hu. lia.
  - intros Hn. rewrite (not_a_number s Hn). lia.
Qed.

Lemma digits_app s1 : forall acc t,
  all_digits s1 = true -> starts_with_digit t = false ->
  digits acc (String.append s1 t) = digits acc s1.
Proof.
  induction s1 as [|c s1 IH]; intros acc t Hall Ht.
  - destruct t as [|d t]; [reflexivity|]. simpl in Ht |- *. now rewrite Ht.
  - simpl in Hall. apply andb_prop in Hall as [Hc Hall].
    cbn [String.append digits]. rewrite Hc. now apply IH.
Qed.

Lemma strtol_digit c s :
  isdigit c = true ->
  strtol (String c s) = Z.max INT_MIN (Z.min INT_MAX (digits 0 (String c s))).
Proof.
  intros Hc. unfold strtol.
  destruct c as [[] [] [] [] [] [] [] []]; try discriminate Hc; reflexivity.
Qed.

(** A number from 4 to 200 followed by text that does not start with a
    digit is read as the number. *)
Lemma atoi_number_then_text (n : Z) (t : string) :
  4 <= n <= 200 -> starts_with_digit t = false ->
  atoi (String.append (decimal n) t) = n.
Proof.
  intros Hn Ht.
  assert (Hall : forallb (fun k => all_digits (decimal (Z.of_nat k))
                                   && starts_with_digit (decimal (Z.of_nat k)))
                   (seq 4 197) = true) by (vm_compute; reflexivity).
  rewrite forallb_forall in Hall.
  specialize (Hall (Z.to_nat n)). rewrite Z2Nat.id in Hall by lia.
  assert (Hin : In (Z.to_nat n) (seq 4 197)) by (apply in_seq; lia).
  apply Hall in Hin. apply andb_prop in Hin as [Hd Hs].
  pose proof (atoi_decimal n Hn) as Hat.
  destruct (decimal n) as [|c s] eqn:E; [discriminate Hs|].
  cbn [starts_with_digit] in Hs. unfold atoi in *.
  change (String.append (String c s) t) with (String c (String.append s t)).
  rewrite strtol_digit in * by assumption.
  change (String c (String.append s t)) with (String.append (String c s) t).
  now rewrite digits_app.
Qed.

(** X12.  [prog -r NUMBERtext], a number from 4 to 200 followed by any
    text that does not start with a digit, gets to
    rc_mpu_initialize_dmp with the number as [dmp_sample_rate]: the
    text is ignored. *)
Theorem X12_rate_followed_by_text (i : input) (prog : string) (n : Z) (t : string) :
  4 <= n <= 200 -> starts_with_digit t = false ->
  argv i = [prog; "-r"; String.append (decimal n) t] ->
  forall ret, initializes i (set_dmp_sample_rate n initial_conf) ret.
Proof.
  intros Hn Ht Hargv ret.
  pose proof (atoi_number_then_text n t Hn Ht) as Hat.
  assert (Hok : rate_ok (atoi (String.append (decimal n) t)) = true).
  { rewrite Hat. unfold rate_ok. apply andb_true_intro. split; apply Z.leb_le; lia. }
  pose proof (configure_rate_only (ordering i) prog _ (stdin i) Hok) as Hcfg.
  rewrite <- Hargv, Hat in Hcfg.
  exact (configured_initializes i _ _ _ ret Hcfg).
Qed.

(** ** Operands *)

(** X13.  In the default mode of the scanner an operand in front of the
    options changes nothing: [prog x rest] does what [prog rest]
    does.  With POSIXLY_CORRECT set, the scan stops at that operand:
    there is no option, and [main] prints the usage message and
    returns -1, whatever follows. *)
Theorem X13_leading_operand (prog x : string) (rest : list string) (sin : list ascii) :
  NONOPTION_P x = true ->
  main_configure PERMUTE (prog :: x :: rest) sin
  = main_configure PERMUTE (prog :: rest) sin /\
  main_configure REQUIRE_ORDER (prog :: x :: rest) sin
  = configure_return (-1)
      (Egetopt (-1) :: __print_usage
         ++ [Eprintf (line "please enable an option to print some data") []]).
Proof.
  intros Hx. split.
  - apply main_configure_options.
    rewrite (scan_argc PERMUTE _ 1) by (simpl List.length; lia).
    rewrite (scan_argc PERMUTE (Z.of_nat (List.length (prog :: rest))) 1)
      by (simpl List.length; lia).
    rewrite !(scan_unfold PERMUTE 1 (getopt_init _)).
    unfold getopt, next_option_char, getopt_init.
    cbn [Z.ltb Z.compare Pos.compare Pos.compare_cont tl nextchar pending skip_nonoptions].
    rewrite Hx.
    destruct (skip_nonoptions rest) as [|e r]; [reflexivity|].
    destruct (String.eqb e "--"); [reflexivity|].
    destruct (NONOPTION_P e); [reflexivity|].
    destruct e as [|e0 [|e1 e2]]; reflexivity.
  - unfold main_configure. rewrite option_loop_options.
    rewrite (scan_argc REQUIRE_ORDER _ 1) by (simpl List.length; lia).
    rewrite scan_unfold.
    unfold getopt, next_option_char, getopt_init.
    cbn [Z.ltb Z.compare Pos.compare Pos.compare_cont tl nextchar pending].
    rewrite Hx. destruct (String.eqb x "--"); reflexivity.
Qed.

(** ** The argument of -m *)




(** ** The message for an option the program does not know *)

Lemma no_int_opt_line e : no_int_argument e -> opt_line_ok e.
Proof. intros H fmt c E. now destruct (H fmt c). Qed.

Lemma no_int_printf fmt : no_int_argument (Eprintf fmt []).
Proof. intros f c E. discriminate E. Qed.

Lemma no_int_getopt c : no_int_argument (Egetopt c).
Proof. intros f c' E. discriminate E. Qed.

Lemma usage_no_int : Forall no_int_argument __print_usage.
Proof. repeat constructor; apply no_int_printf. Qed.

Lemma prompt_no_int sin r s o :
  __orientation_prompt sin = (r, s, o) -> Forall no_int_argument o.
Proof.
  assert (Hm : Forall no_int_argument prompt_menu)
    by (repeat constructor; apply no_int_printf).
  assert (Hc : forall cs, Forall no_int_argument (complaints cs)).
  { induction cs as [|c cs IH]; [constructor|].
    unfold complaints in *. simpl. apply Forall_app. split; [|exact IH].
    destruct (Ascii.eqb c LF); repeat constructor. apply no_int_printf. }
  unfold __orientation_prompt.
  destruct (prompt_loop_spec sin prompt_menu) as (pre & _ & H).
  destruct H as [[_ H]|[(c & x & rest & _ & _ & H)|(rest & _ & H)]];
    rewrite H; intros E; injection E as _ _ <-;
    repeat (apply Forall_cons; [apply no_int_printf|]);
    rewrite ?Forall_app; repeat split; auto.
  repeat constructor. apply no_int_printf.
Qed.

Lemma option_fold_int_arguments opts :
  Forall reported opts -> forall v o,
  Forall no_int_argument o ->
  match option_fold opts v o with
  | loop_done _ o' => Forall no_int_argument o'
  | loop_return rc o' => rc = -1 /\ Forall opt_line_ok o'
  | loop_null _ => False
  | loop_fuel => False
  end.
Proof.
  induction 1 as [|[c a] t Hx _ IH]; intros v o Ho; cbn [option_fold].
  - apply Forall_app. split; [exact Ho|]. repeat constructor. apply no_int_getopt.
  - assert (Ho1 : Forall no_int_argument (o ++ [Egetopt c])).
    { apply Forall_app. split; [exact Ho|]. repeat constructor. apply no_int_getopt. }
    unfold option_switch.
    destruct (Z.eqb_spec c (chr "r")) as [Hr|Hr].
    { destruct a as [s|].
      - destruct ((atoi s >? 200) || (atoi s <? 4)).
        + split; [reflexivity|]. apply Forall_app. split.
          * eapply Forall_impl; [|exact Ho1]. apply no_int_opt_line.
          * apply Forall_cons; [apply no_int_opt_line, no_int_printf | constructor].
        + now apply IH.
      - destruct Hx as [[_ [s Hs]]|[[Hc _]|[[Hc _]|[[Hc _]|[Hc _]]]]]; simpl in *;
          [discriminate Hs| | | |]; rewrite Hc in Hr; discriminate Hr. }
    destruct (Z.eqb_spec c (chr "m")) as [Hm|Hm]; [now apply IH|].
    destruct (Z.eqb_spec c (chr "o")) as [Hoo|Hoo]; [now apply IH|].
    destruct (Z.eqb_spec c (chr "h")) as [Hh|Hh].
    + split; [reflexivity|]. apply Forall_app. split.
      * eapply Forall_impl; [|exact Ho1]. apply no_int_opt_line.
      * eapply Forall_impl; [|exact usage_no_int]. apply no_int_opt_line.
    + assert (Hq : c = chr "?").
      { destruct Hx as [[Hc _]|[[Hc _]|[[Hc _]|[[Hc _]|[Hc _]]]]]; simpl in Hc;
          congruence. }
      split; [reflexivity|]. apply Forall_app. split.
      * eapply Forall_impl; [|exact Ho1]. apply no_int_opt_line.
      * apply Forall_cons.
        { intros fmt c' E. injection E as <- <-. split; [reflexivity | exact Hq]. }
        apply Forall_cons; [apply no_int_opt_line, no_int_printf|].
        eapply Forall_impl; [|exact usage_no_int]. apply no_int_opt_line.
Qed.

(** X15.  Whatever the command line, the only [printf] of the first
    part of [main] that is given a character is the one of line 184,
    and the character is always ['?']: the message never names the
    option that was not understood.  When it is printed, [main] returns
    -1. *)
Theorem X15_unknown_option_message (ord : ordering_t) (av : list string)
    (sin : list ascii) (fmt : string) (c : Z) :
  In (Eprintf fmt [Aint c]) (events_of (main_configure ord av sin)) ->
  fmt = line "opt: %c" /\ c = chr "?" /\
  printf fmt [Aint c]
  = map Pchar (list_ascii_of_string "opt: ") ++ [Pint_char (chr "?"); Pchar LF] /\
  exists o, main_configure ord av sin = configure_return (-1) o.
Proof.
  unfold main_configure. rewrite option_loop_options.
  pose proof (option_fold_int_arguments
                (scan ord (Z.of_nat (List.length av)) (getopt_init av))
                (scan_reported _ _ _) (mk_vars 0 initial_conf 0 0) []
                (Forall_nil _)) as Hf.
  destruct (option_fold _ _ _) as [v out|rc out|out|]; try contradiction.
  - assert (Hno : forall o, Forall no_int_argument o ->
                            In (Eprintf fmt [Aint c]) o -> False).
    { intros o Ho Hin. rewrite Forall_forall in Ho. exact (Ho _ Hin fmt c eq_refl). }
    destruct (show_something v =? 0).
    + cbn [events_of]. intros Hin. exfalso. apply (Hno _ (Forall_nil _)).
      apply in_app_or in Hin as [Hin|Hin]; [destruct (Hno _ Hf Hin)|].
      apply in_app_or in Hin as [Hin|Hin]; [destruct (Hno _ usage_no_int Hin)|].
      destruct Hin as [E|[]]. discriminate E.
    + destruct (negb (orientation_menu v =? 0)).
      * destruct (__orientation_prompt sin) as [[[x|status] s'] o'] eqn:Hp;
          cbn [events_of]; intros Hin; exfalso;
          (apply in_app_or in Hin as [Hin|Hin];
           [exact (Hno _ Hf Hin) | exact (Hno _ (prompt_no_int _ _ _ _ Hp) Hin)]).
      * cbn [events_of]. intros Hin. destruct (Hno _ Hf Hin).
  - destruct Hf as [-> Hf]. cbn [events_of]. intros Hin.
    rewrite Forall_forall in Hf. destruct (Hf _ Hin fmt c eq_refl) as [-> ->].
    split; [reflexivity|]. split; [reflexivity|].
    split; [vm_compute; reflexivity | now exists out].
Qed.

(** ** Command lines without options *)

Lemma no_option_scanned ord argc d :
  next_option_char ord d = None -> scan ord argc d = [].
Proof.
  intros H. rewrite scan_unfold. unfold getopt. rewrite H.
  destruct (argc <? 1); reflexivity.
Qed.

(** X16.  A command line with no option on it, only operands, or
    operands and then [--], whatever comes after it, has [main] print
    the usage message and the request to enable an option, and return
    -1. *)
Theorem X16_no_option_given (ord : ordering_t) (prog : string)
    (rest post : list string) (sin : list ascii) :
  forallb NONOPTION_P rest = true ->
  main_configure ord (prog :: rest) sin = configure_return (-1) nothing_to_show /\
  main_configure ord (prog :: rest ++ "--" :: post) sin
  = configure_return (-1) nothing_to_show.
Proof.
  intros Hrest. split.
  - unfold main_configure. rewrite option_loop_options, no_option_scanned; [reflexivity|].
    unfold next_option_char, getopt_init. cbn [nextchar pending tl].
    destruct ord.
    + destruct rest as [|e rest]; [reflexivity|]. simpl in Hrest.
      apply andb_prop in Hrest as [-> _]. destruct (String.eqb e "--"); reflexivity.
    + rewrite <- (app_nil_r rest), skip_nonoptions_app by assumption. reflexivity.
  - unfold main_configure. rewrite option_loop_options, no_option_scanned; [reflexivity|].
    unfold next_option_char, getopt_init. cbn [nextchar pending tl].
    destruct ord.
    + destruct rest as [|e rest]; [reflexivity|]. simpl in Hrest.
      apply andb_prop in Hrest as [He _]. cbn [app]. rewrite He.
      destruct (String.eqb e "--"); reflexivity.
    + rewrite skip_nonoptions_app by assumption. reflexivity.
Qed.

End Proofs.

(** * The theorems at work on concrete runs *)

Lemma C1_witness :
  let c := mk_config 3 21 2 1 50 ORIENTATION_X_UP "vendor defaults" in
  i2c_bus c = 2 /\
  gpio_interrupt_pin_chip c = 3 /\
  gpio_interrupt_pin c = 21 /\
  other_fields c = other_fields rc_mpu_default_config /\
  has_option "r" (options run_full) = true /\
  dmp_sample_rate c
    = match rate_of (options run_full) with
      | Some r => r
      | None => dmp_sample_rate rc_mpu_default_config
      end /\
  enable_magnetometer c
    = (if has_option "m" (options run_full) then 1
       else enable_magnetometer rc_mpu_default_config) /\
  (if has_option "o" (options run_full) then
     exists s o', __orientation_prompt (stdin run_full) = (prompt_return (orient c), s, o')
   else orient c = orient rc_mpu_default_config).
Proof.
  intros c.
  apply (C1_initialize_dmp_configuration (RC := librobotcontrol) run_full
           (state_after run_full to_the_loop) c 0).
  - exists to_the_loop. vm_compute. reflexivity.
  - vm_compute. auto 20.
Defined.

Lemma C2_witness :
  let d := mk_data (fun n => match n with
                             | O => 1%float
                             | S O => (-2)%float
                             | _ => 0.5%float
                             end) in
  let st := state_after run_full to_the_loop in
  stdout_of (__print_data d)
  = [ Pchar CR; Pchar " ";
      Pfixed 6 1 (1 * RAD_TO_DEG_value)%float; Pchar " ";
      Pfixed 6 1 (-2 * RAD_TO_DEG_value)%float; Pchar " ";
      Pfixed 6 1 (0.5 * RAD_TO_DEG_value)%float; Pchar " ";
      Pchar "|" ] /\
  exists st',
    exec run_full (Ldmp d) st = Some st' /\ data st' = d /\
    stdout_of (out st') = stdout_of (out st) ++ stdout_of (__print_data d).
Proof.
  intros d st. split.
  - exact (proj1 (C2_print_data_output d)).
  - apply (proj2 (C2_print_data_output d) run_full st).
    + exists to_the_loop. vm_compute. reflexivity.
    + reflexivity.
    + reflexivity.
Defined.

Lemma C3_witness :
  let st := state_after run_full to_the_loop in
  reachable run_full st /\
  pc st = L223 /\ running st = 1 /\
  (forall l st',
     exec run_full l st = Some st' -> running st' = 0 -> l = Lsigint) /\
  (exists st1, exec run_full (Lmain 0) st = Some st1 /\ pc st1 = L223_usleep /\
     exists st2, exec run_full (Lmain 0) st1 = Some st2 /\ pc st2 = L223 /\
                 out st2 = out st ++ [Eusleep 100000]).
Proof.
  intros st.
  assert (Hr : reachable run_full st) by (exists to_the_loop; vm_compute; reflexivity).
  destruct (C3_idle_until_sigint run_full st Hr) as (_ & Hsleep & Hclear & _ & _).
  split; [exact Hr|]. split; [reflexivity|]. split; [reflexivity|]. split.
  - intros l st' He Hz. apply (Hclear l st' He); [|exact Hz]. vm_compute. discriminate.
  - apply Hsleep; [reflexivity|]. vm_compute. discriminate.
Defined.

Lemma C4_witness :
  let st := state_after run_help [Lmain 0] in
  reachable run_help st /\ pc st = Returned (-1) /\
  (-1 = 0 \/
   (-1 = -1 /\
    ((exists c ret, ret <> 0 /\ In (Einitialize_dmp c ret) (out st)) \/
     ((forall c ret, ~ In (Einitialize_dmp c ret) (out st)) /\
      ((exists o, In o (options run_help) /\
                  (fst o = chr "h" \/ fst o = chr "?" \/ bad_rate o = true)) \/
       has_option "r" (options run_help) = false))))).
Proof.
  intros st.
  assert (Hr : reachable run_help st) by (exists [Lmain 0]; vm_compute; reflexivity).
  split; [exact Hr|]. split; [reflexivity|].
  apply (C4_failure_causes run_help st (-1) Hr). reflexivity.
Defined.

(** C4 as stated fails on [print_data -h]: [main] returns -1 and
    rc_mpu_initialize_dmp has not been called at all. *)
Lemma C4_counterexample :
  let st := state_after run_help [Lmain 0] in
  reachable run_help st /\ pc st = Returned (-1) /\
  (forall c ret, ~ In (Einitialize_dmp c ret) (out st)) /\
  out st = Egetopt (chr "h") :: __print_usage.
Proof.
  intros st.
  split; [exists [Lmain 0]; vm_compute; reflexivity|].
  split; [reflexivity|]. split; [|reflexivity].
  intros c ret Hin. vm_compute in Hin.
  repeat destruct Hin as [Hin|Hin]; try discriminate Hin. exact Hin.
Defined.

Lemma C5_witness :
  let st := state_after run_full (to_the_loop ++ [Lmain 0; Lmain 0]) in
  reachable run_full st /\
  out st = [ Egetopt (chr "r"); Egetopt (chr "m"); Egetopt (chr "o"); Egetopt (-1) ]
           ++ prompt_menu ++ [Eprintf (line "invalid input") []]
           ++ [ Esignal;
                Einitialize_dmp
                  (mk_config 3 21 2 1 50 ORIENTATION_X_UP "vendor defaults") 0 ]
           ++ __print_header ++ [Eset_dmp_callback] ++ [Eusleep 100000] /\
  (exists pre c post,
     out st = pre ++ Einitialize_dmp c 0 :: post /\
     ~ In Eset_dmp_callback pre /\ In Eset_dmp_callback post) /\
  (exists pre post,
     out st = pre ++ Eset_dmp_callback :: post /\
     forall us', ~ In (Eusleep us') pre).
Proof.
  intros st.
  assert (Hr : reachable run_full st)
    by (exists (to_the_loop ++ [Lmain 0; Lmain 0]); vm_compute; reflexivity).
  destruct (C5_order_of_operations run_full st Hr) as (_ & Hcb & Hsl).
  split; [exact Hr|]. split; [reflexivity|]. split.
  - apply Hcb. vm_compute. auto 30.
  - apply (Hsl 100000). vm_compute. auto 30.
Defined.





Lemma X1_witness :
  let st := state_after run_full (to_the_loop ++ Lsigint :: wind_down) in
  pc st = Returned 0 /\
  count is_signal (out st) = 1%nat /\
  count is_initialize (out st) = 1%nat /\
  count is_set_callback (out st) = 1%nat /\
  count is_power_off (out st) = 1%nat /\
  dmp_on st = false.
Proof.
  intros st.
  assert (Hr : reachable run_full st)
    by (exists (to_the_loop ++ Lsigint :: wind_down); vm_compute; reflexivity).
  split; [reflexivity|].
  apply (proj2 (X1_each_call_once run_full st Hr)). reflexivity.
Defined.

Lemma X2_witness :
  let st := state_after run_full [Lmain 0; Lmain 0; Lmain 0] in
  exists st',
    run run_full [Lmain 1; Lmain 0; Lmain 0] st = Some st' /\
    pc st' = Returned (-1) /\
    out st' = out st ++ [Einitialize_dmp (conf (locals st)) 1;
                         Eprintf (line "rc_mpu_initialize_failed") []].
Proof.
  intros st.
  apply (proj2 (X2_initialize_failure run_full) st 1); [reflexivity | discriminate].
Defined.

Lemma X3_witness :
  let st := state_after run_full to_the_loop in
  let ls := [Ldmp sample_a; Lmain 0; Lmain 0] in
  let st' := state_after run_full (to_the_loop ++ Lsigint :: ls) in
  run run_full (Lsigint :: ls) st = Some st' /\
  pc st' = L227 /\ running st' = 0 /\
  (main_steps ls + statements_left (pc st') = statements_left (pc st))%nat /\
  exists st'', exec run_full (Lmain 0) st' = Some st''.
Proof.
  intros st ls st'.
  assert (Hr : reachable run_full st) by (exists to_the_loop; vm_compute; reflexivity).
  assert (Hrun : run run_full (Lsigint :: ls) st = Some st')
    by (vm_compute; reflexivity).
  destruct (X3_stops_after_sigint run_full st Hr (or_introl eq_refl) ls st' Hrun)
    as (H1 & H2 & _ & _ & H5).
  split; [exact Hrun|]. split; [reflexivity|]. split; [exact H1|]. split; [exact H2|].
  apply H5. vm_compute. discriminate.
Defined.

Lemma X4_witness :
  let st := state_after run_full to_the_loop in
  let ls := [Ldmp sample_a; Lsigint; Ldmp sample_b] in
  exists st',
    run run_full ls st = Some st' /\ pc st' = pc st /\
    out st' = out st ++ flat_map __print_data (samples ls) /\
    data st' = last (samples ls) (data st) /\
    stdout_of (out st') = stdout_of (out st) ++ flat_map data_line (samples ls) /\
    ~ In (Pchar LF) (flat_map data_line (samples ls)).
Proof.
  intros st ls. apply (X4_interrupts_while_idle run_full st ls).
  - exists to_the_loop. vm_compute. reflexivity.
  - left. reflexivity.
  - reflexivity.
Defined.

Lemma X5_witness :
  let st := state_after run_full
              (to_the_loop ++ [Lmain 0; Ldmp sample_a; Lmain 0; Ldmp sample_b]) in
  exists v s o xs,
    main_configure (ordering run_full) (argv run_full) (stdin run_full)
    = configured v s o /\
    out st = o ++ [Esignal; Einitialize_dmp (conf v) 0] ++ __print_header
               ++ [Eset_dmp_callback] ++ idle_events xs /\
    stdout_of (out st)
    = stdout_of o
        ++ map Pchar (list_ascii_of_string (line "  DMP TaitBryan (deg) |"))
        ++ flat_map data_line (printed_samples xs) /\
    ~ In (Pchar LF) (flat_map data_line (printed_samples xs)).
Proof.
  intros st. apply (X5_terminal_in_the_loop run_full st).
  - exists (to_the_loop ++ [Lmain 0; Ldmp sample_a; Lmain 0; Ldmp sample_b]).
    vm_compute. reflexivity.
  - left. reflexivity.
Defined.


Lemma X7_witness :
  existsb menu_line
    (events_of (main_configure (ordering run_full) (argv run_full) (stdin run_full)))
  = true /\
  main_configure PERMUTE ["print_data"; "-o"] []
  = main_configure PERMUTE ["print_data"; "-o"] ["3"]%char /\
  (forall st, reachable run_o_only st -> stdin_left st = ["3"]%char).
Proof.
  split.
  - apply (proj2 (proj1 (X7_menu_only_when_needed run_full))).
    repeat split; vm_compute; reflexivity.
  - destruct (proj2 (X7_menu_only_when_needed run_o_only)) as (_ & Hst & Hin).
    + vm_compute. reflexivity.
    + split; [exact (Hin []) | exact Hst].
Defined.

Lemma X8_witness :
  exec run_quit (Lmain 0) (initial run_quit)
  = Some (goto (Exited 0)
            (emit (getopt_calls (options run_quit) ++ Egetopt (-1) :: prompt_menu
                     ++ complaints ["x"%char] ++ [Eprintf (line "Quitting") []])
               (initial run_quit))).
Proof.
  refine (proj1 (X8_quit_at_the_menu run_quit ["x"%char] ["1"%char] _ _ _ _ _) 0);
    vm_compute; reflexivity.
Defined.

Lemma X9_witness :
  let st := state_after run_no_choice to_the_loop in
  let c := mk_config 3 21 2 0 50 ORIENTATION_Z_UP "vendor defaults" in
  In (Einitialize_dmp c 0) (out st) /\ orient c = ORIENTATION_Z_UP.
Proof.
  intros st c.
  assert (Hin : In (Einitialize_dmp c 0) (out st)) by (vm_compute; auto 30).
  split; [exact Hin|].
  apply (X9_no_selection_is_z_up run_no_choice st c 0).
  - exists to_the_loop. vm_compute. reflexivity.
  - exact Hin.
  - vm_compute. reflexivity.
  - vm_compute. reflexivity.
Defined.

Lemma X11_witness :
  initializes run_rate_7 (set_dmp_sample_rate 7 initial_conf) 0.
Proof.
  apply (proj1 (X11_rate_argument run_rate_7 "print_data" "7" eq_refl)).
  assert (E : atoi "7" = 7) by reflexivity. rewrite E. lia.
Defined.

Lemma X12_witness :
  initializes run_rate_hz (set_dmp_sample_rate 50 initial_conf) 0.
Proof.
  apply (X12_rate_followed_by_text run_rate_hz "print_data" 50 "Hz").
  - lia.
  - reflexivity.
  - vm_compute. reflexivity.
Defined.

Lemma X13_witness :
  main_configure PERMUTE ["print_data"; "file"; "-r"; "50"] []
  = main_configure PERMUTE ["print_data"; "-r"; "50"] [] /\
  main_configure REQUIRE_ORDER ["print_data"; "file"; "-r"; "50"] []
  = configure_return (-1)
      (Egetopt (-1) :: __print_usage
         ++ [Eprintf (line "please enable an option to print some data") []]).
Proof.
  apply (X13_leading_operand "print_data" "file" ["-r"; "50"] []). reflexivity.
Defined.

Lemma X15_witness :
  In (Eprintf (line "opt: %c") [Aint (chr "?")])
     (events_of (main_configure PERMUTE ["print_data"; "-x"] [])) /\
  exists o, main_configure PERMUTE ["print_data"; "-x"] [] = configure_return (-1) o.
Proof.
  assert (Hin : In (Eprintf (line "opt: %c") [Aint (chr "?")])
                   (events_of (main_configure PERMUTE ["print_data"; "-x"] [])))
    by (vm_compute; auto).
  split; [exact Hin|].
  exact (proj2 (proj2 (proj2 (X15_unknown_option_message PERMUTE _ [] _ _ Hin)))).
Defined.

Lemma X16_witness :
  main_configure PERMUTE ("print_data" :: ["a"; "-"]) []
  = configure_return (-1) nothing_to_show /\
  main_configure PERMUTE ("print_data" :: ["a"; "-"] ++ "--" :: ["-r"; "50"]) []
  = configure_return (-1) nothing_to_show.
Proof.
  apply (X16_no_option_given PERMUTE "print_data" ["a"; "-"] ["-r"; "50"] []).
  reflexivity.
Defined.

(** ** The definitions on a few inputs *)

Example atoi_100 : atoi "100" = 100.
Proof. reflexivity. Qed.

Example atoi_leading_sign : atoi "  -12abc" = -12.
Proof. reflexivity. Qed.

Example atoi_no_digits : atoi "-m" = 0.
Proof. reflexivity. Qed.

Example atoi_saturates : atoi "99999999999" = INT_MAX.
Proof. reflexivity. Qed.

Example options_cluster :
  options (mk_input ["prog"; "x"; "-or7"; "--"; "-h"] PERMUTE [])
  = [(chr "o", None); (chr "r", Some "7")].
Proof. reflexivity. Qed.

Example options_posix_stop :
  options (mk_input ["prog"; "x"; "-o"] REQUIRE_ORDER []) = [].
Proof. reflexivity. Qed.

Example options_unknown_letter :
  options (mk_input ["prog"; "-zo"; "-m"] PERMUTE [])
  = [(chr "?", None); (chr "o", None); (chr "?", None)].
Proof. reflexivity. Qed.

Example prompt_quits :
  __orientation_prompt ["x"; LF; "q"; "1"]%char
  = (prompt_exit 0, ["1"%char],
     prompt_menu ++ [Eprintf (line "invalid input") []; Eprintf (line "Quitting") []]).
Proof. reflexivity. Qed.

Example no_arguments_prints_usage :
  main_configure PERMUTE ["print_data"] []
  = configure_return (-1)
      (Egetopt (-1) :: __print_usage
         ++ [Eprintf (line "please enable an option to print some data") []]).
Proof. reflexivity. Qed.

Example interrupted_run_returns_0 :
  option_map pc
    (run run_rate_7 (to_the_loop ++ [Lmain 0; Lsigint; Lmain 0; Lmain 0;
                                     Lmain 0; Lmain 0; Lmain 0; Lmain 0])
       (initial run_rate_7))
  = Some (Returned 0).
Proof. reflexivity. Qed.
